(** * Loan amortization preview, delinquency listing and sign-up role

    A shallow embedding of the calculations found in the React components
    [Loans] (new-loan form with its cost preview and [handleCreateLoan]),
    [LatePayments] ([getDaysLate], [filteredLate], the three-way severity
    styling) and [LoginPage] (role selection on sign-up), with the
    properties the specification states about them.

    Numbers.  A JavaScript Number is an IEEE 754 binary64 value; it is
    modelled by [spec_float] with precision 53 and maximal exponent 1024,
    whose operations round to nearest, ties to even.  The formulas of the
    loan form are written once, over a [Numeric] interface, and read at
    the [Binary64] instance, which is what the code computes.  Where a
    property speaks of how close two Numbers are, [Binary64.value] gives
    the rational a finite Number stands for.

    Time values and day counts are integral Numbers far below 2^53; they
    are modelled by [Z], with one extra value for NaN. *)

From Stdlib Require Import ZArith QArith Qabs Qpower Bool String Ascii List.
From Stdlib Require Import Lia Lqa.
From Stdlib Require Import DecimalString.
From Stdlib Require Import Floats.SpecFloat.
Import ListNotations.

Set Implicit Arguments.

(* ================================================================= *)
(** ** The Number interface used by the loan form *)

(** The operators the form applies to Numbers: [*], [+], [/], the
    truthiness test behind [||], and integer literals. *)
Class Numeric (num : Type) : Type := {
  mul : num -> num -> num;
  add : num -> num -> num;
  div : num -> num -> num;
  ToBoolean : num -> bool;
  lit : Z -> num
}.

(** The global functions [parseFloat] and [parseInt] (one argument, so
    radix 10 unless the text has a hexadecimal prefix). *)
Class Globals (num : Type) : Type := {
  parseFloat : string -> num;
  parseInt : string -> num
}.

Declare Scope js_scope.
Delimit Scope js_scope with js.
Infix "*" := mul : js_scope.
Infix "+" := add : js_scope.
Infix "/" := div : js_scope.

(** [a || b] on Numbers: [a] when it is truthy, else [b]. *)
Definition or_else {num} `{Numeric num} (a b : num) : num :=
  if ToBoolean a then a else b.
Notation "a '||' b" := (or_else a b) : js_scope.

(* ================================================================= *)
(** ** Binary64 Numbers *)

Module Binary64.

Definition prec : Z := 53.
Definition emax : Z := 1024.

Definition number : Type := spec_float.

Definition NaN : number := S754_nan.
Definition Infinity : number := S754_infinity false.

(** The Number of a mathematical integer, rounded to nearest even. *)
Definition ofZ (z : Z) : number := binary_normalize prec emax z 0 false.

(** The Number nearest to the fraction [p / q], with the given sign. *)
Definition ofRatio (neg : bool) (p q : positive) : number :=
  let '(m, e, l) := SFdiv_core_binary prec emax (Zpos p) 0 (Zpos q) 0 in
  binary_round_aux prec emax neg m e l.

(** ToBoolean on a Number: false exactly for +0, -0 and NaN. *)
Definition truthy (x : number) : bool :=
  match x with
  | S754_zero _ | S754_nan => false
  | _ => true
  end.

#[export] Instance binary64 : Numeric number := {
  mul := SFmul prec emax;
  add := SFadd prec emax;
  div := SFdiv prec emax;
  ToBoolean := truthy;
  lit := ofZ
}.

Definition is_nan (x : number) : bool :=
  match x with S754_nan => true | _ => false end.

Definition is_infinite (x : number) : bool :=
  match x with S754_infinity _ => true | _ => false end.

Definition is_zero (x : number) : bool :=
  match x with S754_zero _ => true | _ => false end.

(** [Number.isFinite]. *)
Definition isFinite (x : number) : bool :=
  match x with
  | S754_zero _ | S754_finite _ _ _ => true
  | _ => false
  end.

(** [a >= b] and [a < b] on Numbers (false when either is NaN). *)
Definition geb (a b : number) : bool := SFleb b a.
Definition ltb (a b : number) : bool := SFltb a b.

(** SameValueZero: NaN equals NaN, and the two zeros are equal. *)
Definition SameValueZero (a b : number) : Prop :=
  a = b \/ (is_zero a = true /\ is_zero b = true).

(** The rational a finite Number stands for: its mantissa times a power
    of two, with its sign (0 for the zeros; NaN and the infinities stand
    for no rational and are given 0). *)
Definition value (x : number) : Q :=
  match x with
  | S754_finite s m e =>
      let v := (inject_Z (Zpos m) * 2 ^ e)%Q in
      if s then (- v)%Q else v
  | _ => 0%Q
  end.

(** A normal Number: finite, with a full mantissa of 53 bits (magnitude
    from 2^-1022 up to the largest Number). *)
Definition isNormal (x : number) : bool :=
  match x with
  | S754_finite _ m _ => (Zpos (digits2_pos m) =? prec)%Z
  | _ => false
  end.

End Binary64.

(* ================================================================= *)
(** ** Reading a rounding

    The vocabulary of the error bounds: what the record of a right
    shift knows of the fraction it stands for, and an integer scaled by
    a power of two. *)

Module Bracket.
Local Open Scope Z_scope.

(** The record stands for the fraction [A / B]: it holds the integer
    part, whether the rest is at least a half, and whether the rest is
    neither nothing nor exactly a half. *)
Definition Rec (A B : Z) (mrs : shr_record) : Prop :=
  shr_m mrs = A / B /\
  shr_r mrs = (B <=? 2 * (A mod B)) /\
  shr_s mrs = negb ((A mod B =? 0) || (2 * (A mod B) =? B)).

Definition scaled (m e : Z) : Q := (inject_Z m * 2 ^ e)%Q.

End Bracket.

(* ================================================================= *)
(** ** [parseFloat] and [parseInt]

    The two global functions, on texts of ASCII characters: leading
    white space is skipped, the longest prefix that is a numeral is read,
    what follows it is ignored, and a text with no such prefix gives NaN.
    The value read is rounded to the nearest Number. *)

Module Parse.
Import Binary64.
Local Open Scope Z_scope.

(** What the prefix of a text denotes: nothing, an infinity, or the
    decimal [m * 10^k] with [m >= 0], each with a sign. *)
Inductive Numeral : Type :=
| NotNumeral
| InfinityNumeral (neg : bool)
| Decimal (neg : bool) (m k : Z).

Definition isWhiteSpace (c : ascii) : bool :=
  let n := Z.of_N (N_of_ascii c) in
  (n =? 32) || ((9 <=? n) && (n <=? 13)).

Fixpoint trimStart (s : string) : string :=
  match s with
  | String c r => if isWhiteSpace c then trimStart r else s
  | EmptyString => s
  end.

(** The value of a character as a digit of the given radix (10 or 16). *)
Definition digitOf (radix : Z) (c : ascii) : option Z :=
  let n := Z.of_N (N_of_ascii c) in
  if (48 <=? n) && (n <=? 57) then Some (n - 48)
  else if (radix =? 16) && (97 <=? n) && (n <=? 102) then Some (n - 87)
  else if (radix =? 16) && (65 <=? n) && (n <=? 70) then Some (n - 55)
  else None.

(** Reads the longest run of digits: its value (continuing [acc]), its
    length (continuing [len]) and the rest of the text. *)
Fixpoint digits (radix : Z) (s : string) (acc len : Z) : Z * Z * string :=
  match s with
  | String c r =>
      match digitOf radix c with
      | Some d => digits radix r (radix * acc + d) (len + 1)
      | None => (acc, len, s)
      end
  | EmptyString => (acc, len, s)
  end.

(** An optional sign: is it [-], and the rest of the text. *)
Definition sign (s : string) : bool * string :=
  match s with
  | String "-" r => (true, r)
  | String "+" r => (false, r)
  | _ => (false, s)
  end.

(** An exponent part [e], [e+], [e-] followed by digits; 0 when the
    text does not start with a complete one. *)
Definition exponentPart (s : string) : Z :=
  match s with
  | String c r =>
      if (Ascii.eqb c "e" || Ascii.eqb c "E")%bool then
        let '(neg, r') := sign r in
        let '(v, n, _) := digits 10 r' 0 0 in
        if n =? 0 then 0 else if neg then - v else v
      else 0
  | EmptyString => 0
  end.

(** The numeral [parseFloat] reads: a decimal literal with an optional
    fraction and exponent, or [Infinity]. *)
Definition scanFloat (s : string) : Numeral :=
  let '(neg, t) := sign (trimStart s) in
  if prefix "Infinity" t then InfinityNumeral neg
  else
    let '(ip, ni, t1) := digits 10 t 0 0 in
    let '(fp, nf, t2) :=
      match t1 with
      | String "." r => digits 10 r 0 0
      | _ => (0, 0, t1)
      end in
    if ni + nf =? 0 then NotNumeral
    else Decimal neg (ip * 10 ^ nf + fp) (exponentPart t2 - nf).

(** The numeral [parseInt] reads: decimal digits, or hexadecimal ones
    after [0x]. *)
Definition scanInt (s : string) : Numeral :=
  let '(neg, t) := sign (trimStart s) in
  let '(radix, t') :=
    match t with
    | String "0" (String "x" r) => (16, r)
    | String "0" (String "X" r) => (16, r)
    | _ => (10, t)
    end in
  let '(v, n, _) := digits radix t' 0 0 in
  if n =? 0 then NotNumeral else Decimal neg v 0.

(** The Number nearest to a numeral. *)
Definition toNumber (n : Numeral) : number :=
  match n with
  | NotNumeral => NaN
  | InfinityNumeral neg => S754_infinity neg
  | Decimal neg m k =>
      if m =? 0 then S754_zero neg
      else if 0 <=? k then ofZ ((if neg then - m else m) * 10 ^ k)
      else ofRatio neg (Z.to_pos m) (Z.to_pos (10 ^ (- k)))
  end.

#[export] Instance globals : Globals number := {
  parseFloat s := toNumber (scanFloat s);
  parseInt s := toNumber (scanInt s)
}.

End Parse.

(* ================================================================= *)
(** ** Shared types *)

(** [UserRole] and [User], with the fields [LoginPage] fills in. *)
Inductive UserRole : Type := ADMIN | COLLECTOR.

Record User : Type := {
  id : string;
  name : string;
  login : string;
  phone : string;
  role : UserRole
}.

(** [PaymentType], the frequency of the installments. *)
Inductive PaymentType : Type := DAILY | WEEKLY | MONTHLY.

(* ================================================================= *)
(** ** The new-loan form ([Loans]) *)

(** The form state [newLoan]: the numeric fields hold the text typed in
    the inputs. *)
Record NewLoan : Type := {
  client_id : string;
  capital : string;
  interest_rate : string;
  payment_type : PaymentType;
  installments_count : string;
  start_date : string;
  late_fee_enabled : bool
}.

(** The state the form starts in and is reset to after a loan is created;
    [today] is [new Date().toISOString().split('T')[0]]. *)
Definition initialLoan (today : string) : NewLoan := {|
  client_id := "";
  capital := "";
  interest_rate := "10";
  payment_type := DAILY;
  installments_count := "24";
  start_date := today;
  late_fee_enabled := true
|}.

(** The three amounts both calculations derive. *)
Record Amortization (num : Type) : Type := {
  totalInterest : num;
  totalAmount : num;
  installmentValue : num
}.

(** The row [handleCreateLoan] sends to the table [loans]. *)
Record LoanRow (num : Type) : Type := {
  row_client_id : string;
  row_capital : num;
  row_interest_rate : num;
  row_payment_type : PaymentType;
  row_installments_count : num;
  row_start_date : string;
  row_late_fee_enabled : bool;
  row_status : string;
  row_created_by : string
}.

(** What the user is told by [alert]. *)
Inductive Alert : Type :=
| SelectClient              (* 'Por favor, selecione um cliente.' *)
| NotAuthenticated          (* 'Erro de autenticacao: Usuario nao identificado.' *)
| LoanCreated               (* 'Emprestimo criado com sucesso!' *)
| CreateFailed (message : string). (* 'Erro ao criar emprestimo: ' + err.message *)

(** What one run of [handleCreateLoan] does: the alert shown, the locals
    of its [try] block when it is entered, the row sent to the data
    service if any, and the form state it leaves. *)
Record Submission (num : Type) : Type := {
  alerted : Alert;
  computed : option (Amortization num);
  inserted : option (LoanRow num);
  form : NewLoan
}.

Section Loans.
Context {num : Type} {N : Numeric num} {G : Globals num}.
Local Open Scope js_scope.

(** *** The specification's calculator

    [compute] follows the specification's words:
    totalInterest = principal * (ratePercent / 100),
    totalAmount = principal + totalInterest,
    installmentValue = totalAmount / installmentCount. *)
Definition compute (principal ratePercent installmentCount : num)
  : Amortization num :=
  {| totalInterest := principal * (ratePercent / lit 100);
     totalAmount := principal + principal * (ratePercent / lit 100);
     installmentValue :=
       (principal + principal * (ratePercent / lit 100)) / installmentCount |}.

(** *** The calculation preview (component body) *)

Definition previewCapital (newLoan : NewLoan) : num :=
  parseFloat newLoan.(capital) || lit 0.

Definition previewRate (newLoan : NewLoan) : num :=
  parseFloat newLoan.(interest_rate) || lit 0.

Definition previewCount (newLoan : NewLoan) : num :=
  parseInt newLoan.(installments_count) || lit 1.

Definition preview (newLoan : NewLoan) : Amortization num :=
  let capital := previewCapital newLoan in
  let rate := previewRate newLoan in
  let count := previewCount newLoan in
  let totalInterest := capital * (rate / lit 100) in
  let totalAmount := capital + totalInterest in
  let installmentValue := totalAmount / count in
  {| totalInterest := totalInterest;
     totalAmount := totalAmount;
     installmentValue := installmentValue |}.

(** *** [handleCreateLoan] *)

(** The locals of the [try] block: no default replaces a field here. *)
Definition createLoanAmounts (newLoan : NewLoan) : Amortization num :=
  let capital := parseFloat newLoan.(capital) in
  let rate := parseFloat newLoan.(interest_rate) in
  let count := parseInt newLoan.(installments_count) in
  let totalInterest := capital * (rate / lit 100) in
  let totalAmount := capital + totalInterest in
  let installmentValue := totalAmount / count in
  {| totalInterest := totalInterest;
     totalAmount := totalAmount;
     installmentValue := installmentValue |}.

Definition loanRow (newLoan : NewLoan) (user : User) : LoanRow num :=
  {| row_client_id := newLoan.(client_id);
     row_capital := parseFloat newLoan.(capital);
     row_interest_rate := parseFloat newLoan.(interest_rate);
     row_payment_type := newLoan.(payment_type);
     row_installments_count := parseInt newLoan.(installments_count);
     row_start_date := newLoan.(start_date);
     row_late_fee_enabled := newLoan.(late_fee_enabled);
     row_status := "ACTIVE";
     row_created_by := user.(id) |}.

(** [user] is the signed-in user of the context, if any; [insert] is
    the data service, answering an insert with [Some message] when it
    reports an error; [today] is the date the reset form starts at. *)
Definition handleCreateLoan
    (user : option User) (insert : LoanRow num -> option string)
    (today : string) (newLoan : NewLoan) : Submission num :=
  if String.eqb newLoan.(client_id) "" then
    {| alerted := SelectClient; computed := None; inserted := None;
       form := newLoan |}
  else
    match user with
    | None =>
        {| alerted := NotAuthenticated; computed := None; inserted := None;
           form := newLoan |}
    | Some u =>
        if String.eqb u.(id) "" then
          {| alerted := NotAuthenticated; computed := None;
             inserted := None; form := newLoan |}
        else
          let amounts := createLoanAmounts newLoan in
          let row := loanRow newLoan u in
          match insert row with
          | Some message =>
              {| alerted := CreateFailed message; computed := Some amounts;
                 inserted := Some row; form := newLoan |}
          | None =>
              {| alerted := LoanCreated; computed := Some amounts;
                 inserted := Some row; form := initialLoan today |}
          end
    end.

End Loans.

(* ================================================================= *)
(** ** The delinquency listing ([LatePayments]) *)

Module LatePayments.
Local Open Scope Z_scope.

(** An integral Number, or NaN ([None]): a time value in milliseconds
    ([getTime()] of a date, NaN for text that is not a date) or a count
    of days. *)
Definition integral : Type := option Z.

(** [a - b]. *)
Definition minus (a b : integral) : integral :=
  match a, b with
  | Some x, Some y => Some (x - y)
  | _, _ => None
  end.

(** [Math.floor(a / d)] for a positive literal [d].  For [a] below 2^53
    in magnitude and [d] the milliseconds of a day, the rounded quotient
    of the Numbers never reaches the next integer, so its floor is the
    floor of the exact quotient. *)
Definition floorDiv (a : integral) (d : Z) : integral :=
  match a with
  | Some x => Some (x / d)
  | None => None
  end.

(** [a >= k] for a literal [k]: false on NaN. *)
Definition geq (a : integral) (k : Z) : bool :=
  match a with
  | Some x => k <=? x
  | None => false
  end.

(** A row of [late_payments_summary]; [oldestDueDate] and
    [lastPaymentDate] are kept as the time values [new Date(text)]
    gives them. *)
Record LatePayment : Type := {
  clientId : Z;
  clientName : string;
  clientPhone : string;
  totalPending : Binary64.number;
  oldestDueDate : integral;
  lastPaymentDate : option integral
}.

(** *** The wall clock

    [new Date()] reads the clock of the machine.  A [Clock] gives the
    readings still to come, in milliseconds; a computation that may read
    it takes the clock and returns what is left of it. *)
Definition Clock : Type := nat -> Z.

Definition Reading (A : Type) : Type := Clock -> A * Clock.

Definition ret {A} (a : A) : Reading A := fun c => (a, c).

Definition bind {A B} (m : Reading A) (k : A -> Reading B) : Reading B :=
  fun c => let '(a, c') := m c in k a c'.

(** [new Date().getTime()] *)
Definition newDateGetTime : Reading Z :=
  fun c => (c O, fun n => c (S n)).

Fixpoint filterM {A} (p : A -> Reading bool) (l : list A)
  : Reading (list A) :=
  match l with
  | [] => ret []
  | x :: r =>
      bind (p x) (fun keep =>
      bind (filterM p r) (fun r' =>
      ret (if keep then x :: r' else r')))
  end.

Fixpoint mapM {A B} (f : A -> Reading B) (l : list A) : Reading (list B) :=
  match l with
  | [] => ret []
  | x :: r =>
      bind (f x) (fun y => bind (mapM f r) (fun r' => ret (y :: r')))
  end.

(** *** [getDaysLate] *)

Definition msPerDay : Z := 1000 * 60 * 60 * 24.

(** The arithmetic of [getDaysLate], given what the clock read. *)
Definition daysLate (date : integral) (now : Z) : integral :=
  let diff := minus (Some now) date in
  floorDiv diff msPerDay.

Definition getDaysLate (date : integral) : Reading integral :=
  bind newDateGetTime (fun now => ret (daysLate date now)).

(** *** [filteredLate] *)

(** The test of the filter callback, on the days it computed. *)
Definition matchesFilter (days : integral) (filter : Z) : bool :=
  if filter =? 3 then geq days 3
  else if filter =? 7 then geq days 7
  else if filter =? 30 then geq days 30
  else true.

Definition filteredLate (latePayments : list LatePayment) (filter : Z)
  : Reading (list LatePayment) :=
  filterM (fun lp =>
    bind (getDaysLate lp.(oldestDueDate)) (fun days =>
    ret (matchesFilter days filter))) latePayments.

(** The values the filter buttons set. *)
Definition filterButtons : list Z := [0; 3; 7; 30].

(** *** Severity of a card *)

Definition isCritical (days : integral) : bool := geq days 30.
Definition isWarning (days : integral) : bool := geq days 7.

(** The four places that style a card by severity, as written. *)
Definition cardClass (days : integral) : string :=
  if isCritical days then "shadow-glow-rose border-fin-rose/20"
  else if isWarning days then "shadow-glow-amber border-fin-amber/20"
  else "shadow-glow-blue".

Definition avatarClass (days : integral) : string :=
  if isCritical days then "bg-fin-rose/20 text-fin-rose border-fin-rose/30"
  else if isWarning days then
    "bg-fin-amber/20 text-fin-amber border-fin-amber/30"
  else "bg-white/5 text-slate-300 border-white/10".

Definition debtClass (days : integral) : string :=
  if isCritical days then "text-fin-rose"
  else if isWarning days then "text-fin-amber"
  else "text-white".

Definition clockClass (days : integral) : string :=
  if isCritical days then "text-fin-rose"
  else if isWarning days then "text-fin-amber"
  else "text-fin-blue".

(** The tier those conditionals select between. *)
Inductive Tier : Type := CURRENT | WARNING | CRITICAL.

Definition classify (days : integral) : Tier :=
  if isCritical days then CRITICAL
  else if isWarning days then WARNING
  else CURRENT.

(** The order CURRENT < WARNING < CRITICAL. *)
Definition rank (t : Tier) : Z :=
  match t with CURRENT => 0 | WARNING => 1 | CRITICAL => 2 end.

Definition tier_le (a b : Tier) : Prop := rank a <= rank b.

(** What a card shows: the days and the tier of the row, each card
    reading the clock for itself, after the filter has read it. *)
Definition cards (latePayments : list LatePayment) (filter : Z)
  : Reading (list (LatePayment * integral * Tier)) :=
  bind (filteredLate latePayments filter) (fun shown =>
  mapM (fun lp =>
    bind (getDaysLate lp.(oldestDueDate)) (fun days =>
    ret (lp, days, classify days))) shown).

End LatePayments.

(* ================================================================= *)
(** ** Role selection on sign-up ([LoginPage]) *)

Module LoginPage.

(** The state of the form. *)
Record Form : Type := {
  isLogin : bool;
  username : string;
  password : string;
  name : string;
  phone : string;
  adminCode : string;
  showAdminCode : bool
}.

(** What [supabase.auth.signUp] is called with, and the row inserted in
    [profiles] for the user it returns. *)
Record SignUp : Type := {
  email : string;
  signUp_password : string;
  data_name : string;
  data_phone : string;
  data_role : UserRole
}.

Record Profile : Type := {
  profile_id : string;
  profile_name : string;
  profile_phone : string;
  profile_role : UserRole;
  profile_login : string
}.

(** The role [handleSubmit] picks in its sign-up branch. *)
Definition signUpRole (f : Form) : UserRole :=
  if f.(showAdminCode) && String.eqb f.(adminCode) "admin123" then ADMIN
  else COLLECTOR.

Definition signUp (f : Form) : SignUp :=
  let role := signUpRole f in
  {| email := f.(username);
     signUp_password := f.(password);
     data_name := f.(name);
     data_phone := f.(phone);
     data_role := role |}.

Definition profile (f : Form) (userId : string) : Profile :=
  let role := signUpRole f in
  {| profile_id := userId;
     profile_name := f.(name);
     profile_phone := f.(phone);
     profile_role := role;
     profile_login := f.(username) |}.

(** A sign-up form with the given checkbox and code. *)
Definition sampleForm (checked : bool) (code : string) : Form := {|
  isLogin := false;
  username := "ana@example.com";
  password := "secret";
  name := "Ana";
  phone := "11999990000";
  adminCode := code;
  showAdminCode := checked
|}.

End LoginPage.

(* ================================================================= *)
(** ** Comparing amounts, and sample inputs *)

(** Two results agree when each amount is the same Number, up to the
    sign of a zero. *)
Definition sameAmounts (a b : Amortization Binary64.number) : Prop :=
  Binary64.SameValueZero a.(totalInterest) b.(totalInterest) /\
  Binary64.SameValueZero a.(totalAmount) b.(totalAmount) /\
  Binary64.SameValueZero a.(installmentValue) b.(installmentValue).

(** A Number as the code can hold it: a finite one has a mantissa of at
    most 53 bits and an exponent in the binary64 range. *)
Definition wellFormed (x : Binary64.number) : bool :=
  valid_binary Binary64.prec Binary64.emax x.

Module Samples.

Definition form (capital rate count : string) : NewLoan := {|
  client_id := "17";
  capital := capital;
  interest_rate := rate;
  payment_type := DAILY;
  installments_count := count;
  start_date := "2024-03-15";
  late_fee_enabled := true
|}.

(** The specification's example: 1000 at 10 percent in 24 installments. *)
Definition loan24 : NewLoan := form "1000" "10" "24".

(** The same loan with a count of zero, and with a negative count. *)
Definition loanZeroCount : NewLoan := form "1000" "10" "0".
Definition loanNegativeCount : NewLoan := form "1000" "10" "-4".



(** 100 at 10 percent in 25 installments. *)
Definition loan25 : NewLoan := form "100" "10" "25".

Definition collector : User := {|
  id := "u-1"; name := "Ana"; login := "ana@example.com";
  phone := "11999990000"; role := COLLECTOR
|}.

(** A data service that accepts every row. *)
Definition accept {num} (_ : LoanRow num) : option string := None.

(** A row of the listing, due at the given time value. *)
Definition late (client : string) (due : Z) : LatePayments.LatePayment := {|
  LatePayments.clientId := 1;
  LatePayments.clientName := client;
  LatePayments.clientPhone := "11999990000";
  LatePayments.totalPending := Binary64.ofZ 250;
  LatePayments.oldestDueDate := Some due;
  LatePayments.lastPaymentDate := None
|}.

(** A clock that reads [t0] first and one day more at each later
    reading. *)
Definition dailyClock (t0 : Z) : LatePayments.Clock :=
  fun n => (t0 + Z.of_nat n * LatePayments.msPerDay)%Z.

End Samples.

(* ================================================================= *)
(** ** Text built-ins

    Texts are sequences of UTF-8 bytes.  The three built-ins below only
    look at ASCII characters, and a character outside ASCII is made of
    bytes from 128 up, so they act on the bytes as they act on the
    characters: [replace(/\D/g, '')] drops every byte that is not a
    digit, and [encodeURIComponent] escapes every byte that is not
    unreserved, as two upper-case hexadecimal digits after a percent
    sign. *)

Module Text.

Definition isDigit (c : ascii) : bool :=
  let n := N_of_ascii c in ((48 <=? n) && (n <=? 57))%N.

(** [s.replace(/\D/g, '')] *)
Fixpoint replaceNonDigits (s : string) : string :=
  match s with
  | String c r =>
      if isDigit c then String c (replaceNonDigits r) else replaceNonDigits r
  | EmptyString => EmptyString
  end.

Definition isAlpha (c : ascii) : bool :=
  let n := N_of_ascii c in
  (((65 <=? n) && (n <=? 90)) || ((97 <=? n) && (n <=? 122)))%N.

(** The marks [encodeURIComponent] leaves alone: [- _ . ! ~ * ' ( )]. *)
Definition isMark (c : ascii) : bool :=
  let n := N_of_ascii c in
  ((n =? 45) || (n =? 95) || (n =? 46) || (n =? 33) || (n =? 126)
   || (n =? 42) || (n =? 39) || (n =? 40) || (n =? 41))%N.

Definition isUnreserved (c : ascii) : bool :=
  isAlpha c || isDigit c || isMark c.

Definition hexDigit (n : N) : ascii :=
  ascii_of_N (if (n <? 10)%N then 48 + n else 55 + n)%N.

Definition percentEncode (c : ascii) : string :=
  let n := N_of_ascii c in
  String "%" (String (hexDigit (n / 16)) (String (hexDigit (n mod 16)) "")).

Fixpoint encodeURIComponent (s : string) : string :=
  match s with
  | String c r =>
      (if isUnreserved c then String c "" else percentEncode c)
        ++ encodeURIComponent r
  | EmptyString => EmptyString
  end.

(** An integral Number inside a template literal: its decimal digits,
    with a minus sign when negative, or [NaN]. *)
Definition showIntegral (d : option Z) : string :=
  match d with
  | Some z => NilZero.string_of_int (Z.to_int z)
  | None => "NaN"
  end.

(** Every character of a text passes the test. *)
Fixpoint all (p : ascii -> bool) (s : string) : bool :=
  match s with
  | String c r => p c && all p r
  | EmptyString => true
  end.

(** The characters that structure a link: [? & # = /], the space and the
    double quote. *)
Definition isDelimiter (c : ascii) : bool :=
  let n := N_of_ascii c in
  ((n =? 63) || (n =? 38) || (n =? 35) || (n =? 61) || (n =? 47)
   || (n =? 32) || (n =? 34))%N.

(** What an escaped text is made of: unreserved characters and the
    percent sign of the escapes. *)
Definition isEscaped (c : ascii) : bool := isUnreserved c || Ascii.eqb c "%".

End Text.

(* ================================================================= *)
(** ** [LatePayments]: the message link, the renegotiation and [cn] *)

Module LateActions.
Import LatePayments.

(** The link both [sendWhatsApp] functions open. *)
Definition whatsAppUrl (clientPhone message : string) : string :=
  "https://wa.me/" ++ Text.replaceNonDigits clientPhone
    ++ "?text=" ++ Text.encodeURIComponent message.

Definition lateMessage (clientName : string) (days : integral) : string :=
  "Olá " ++ clientName ++ ", notamos que seu pagamento está pendente há "
    ++ Text.showIntegral days
    ++ " dias. Por favor, entre em contato para regularizar sua situação.".

(** [sendWhatsApp]: the link given to [window.open]. *)
Definition sendWhatsApp (lp : LatePayment) : Reading string :=
  bind (getDaysLate lp.(oldestDueDate)) (fun days =>
  ret (whatsAppUrl lp.(clientPhone) (lateMessage lp.(clientName) days))).

(** A clock that never runs backwards. *)
Definition monotone (c : Clock) : Prop :=
  forall n m : nat, (n <= m)%nat -> (c n <= c m)%Z.

(** *** [cn]

    An argument of [cn]: a text, a boolean, or null or undefined. *)
Inductive ClassValue : Type :=
| Str (s : string)
| Bool (b : bool)
| Nothing.

(** [Boolean(v)] *)
Definition truthy (v : ClassValue) : bool :=
  match v with
  | Str s => negb (String.eqb s "")
  | Bool b => b
  | Nothing => false
  end.

(** The text [join] gives an element. *)
Definition toText (v : ClassValue) : string :=
  match v with
  | Str s => s
  | Bool true => "true"
  | Bool false => "false"
  | Nothing => ""
  end.

Definition cn (inputs : list ClassValue) : string :=
  String.concat " " (map toText (filter truthy inputs)).

End LateActions.

Module Renegotiate.
Import Binary64.

(** A loan as [handleRenegotiateClick] selects it, with its
    installments. *)
Record Installment : Type := {
  amount : number;
  paid_amount : number;
  status : string;
  due_date : string
}.

Record Loan : Type := {
  id : Z;
  capital : number;
  installments : list Installment
}.

(** What the renegotiation modal is given. *)
Record PendingLoan : Type := {
  pl_id : Z;
  pl_capital : number;
  pending : number
}.

Record RenegotiateClient : Type := {
  client_id : Z;
  client_name : string;
  pendingLoans : list PendingLoan
}.

(** The sum over the installments that are not PAID of what is left of
    each, from 0. *)
Definition pendingAmount (loan : Loan) : number :=
  fold_left
    (fun sum i => SFadd prec emax sum (SFsub prec emax i.(amount) i.(paid_amount)))
    (filter (fun i => negb (String.eqb i.(status) "PAID")) loan.(installments))
    (ofZ 0).

(** An installment that leaves nothing to pay: PAID, or paid in full. *)
Definition settled (i : Installment) : Prop :=
  i.(status) = "PAID"%string \/
  (isFinite i.(amount) = true /\ i.(paid_amount) = i.(amount)).

Definition summary (loan : Loan) : PendingLoan :=
  {| pl_id := loan.(id);
     pl_capital := loan.(capital);
     pending := pendingAmount loan |}.

(** [l.pending > 0] *)
Definition hasPending (l : PendingLoan) : bool := SFltb (ofZ 0) l.(pending).

Definition selectPending (loans : list Loan) : list PendingLoan :=
  filter hasPending (map summary loans).

(** The modal opens, or the user is told the details did not load. *)
Inductive Outcome : Type :=
| Opened (client : RenegotiateClient)
| LoadFailed.

(** [loans] is what the data service answered: [None] when it reported
    an error or answered with no data. *)
Definition handleRenegotiateClick
    (lp : LatePayments.LatePayment) (loans : option (list Loan)) : Outcome :=
  match loans with
  | Some loans =>
      Opened {| client_id := lp.(LatePayments.clientId);
                client_name := lp.(LatePayments.clientName);
                pendingLoans := selectPending loans |}
  | None => LoadFailed
  end.

End Renegotiate.

(* ================================================================= *)
(** ** [LoginPage]: [handleSubmit] *)

Module LoginSubmit.
Import LoginPage.

(** A text that may be missing (null or undefined). *)
Definition text : Type := option string.

(** [a || b] on texts: [a] unless it is missing or empty. *)
Definition orText (a b : text) : text :=
  match a with
  | Some s => if String.eqb s "" then b else a
  | None => b
  end.

(** [a || 'literal'] *)
Definition orLiteral (a : text) (literal : string) : string :=
  match a with
  | Some s => if String.eqb s "" then literal else s
  | None => literal
  end.

(** The user of an authentication answer, and a row of [profiles]. *)
Record AuthUser : Type := {
  auth_id : string;
  auth_email : text;
  metadata_name : text;
  metadata_phone : text
}.

Record ProfileData : Type := {
  profileData_name : text;
  profileData_phone : text;
  profileData_role : UserRole
}.

(** The user handed to [login]; its name is missing when neither the
    profile nor the metadata has one. *)
Record SessionUser : Type := {
  user_id : string;
  user_name : text;
  user_login : string;
  user_phone : string;
  user_role : UserRole
}.

(** What the data service answers: an error with its message, or the
    data. *)
Inductive Answer (A : Type) : Type :=
| Failed (message : text)
| Answered (data : A).
Arguments Failed {A} message.
Arguments Answered {A} data.

(** The answers one submission may need: to the sign-in or the sign-up
    (with the user, if any), to the profile query, and to the profile
    insert ([Some] message when it failed). *)
Record Service : Type := {
  signInWithPassword : Answer (option AuthUser);
  selectProfile : Answer ProfileData;
  authSignUp : Answer (option string);
  insertProfile : option text
}.

(** What [console.error] is called about. *)
Inductive Logged : Type :=
| CaughtError          (* the error the [catch] block received *)
| FetchingProfile      (* 'Error fetching profile:' *)
| CreatingProfile.     (* 'Error creating profile:' *)

(** What the submission leaves: the error line, the mode of the form,
    the user logged in if any, the profile row sent if any, and the
    console.  [loading] is false again in every case. *)
Record Submitted : Type := {
  error : string;
  nowLogin : bool;
  loggedIn : option SessionUser;
  profileSent : option Profile;
  console : list Logged;
  loading : bool
}.

Definition connectionError : string := "Erro ao conectar ao servidor".
Definition profileError : string := "Erro ao carregar perfil do usuário.".

(** The [catch] block: the message of the error, or the fallback. *)
Definition caught (f : Form) (message : text) (before : list Logged)
  : Submitted :=
  {| error := orLiteral message connectionError;
     nowLogin := f.(isLogin);
     loggedIn := None;
     profileSent := None;
     console := before ++ [CaughtError];
     loading := false |}.

Definition sessionUser (u : AuthUser) (p : ProfileData) : SessionUser :=
  {| user_id := u.(auth_id);
     user_name := orText p.(profileData_name) u.(metadata_name);
     user_login := orLiteral u.(auth_email) "";
     user_phone := orLiteral (orText p.(profileData_phone) u.(metadata_phone)) "";
     user_role := p.(profileData_role) |}.

Definition createdMessage (role : UserRole) : string :=
  "Conta " ++ (match role with ADMIN => "ADMIN" | COLLECTOR => "" end)
    ++ " criada com sucesso! Verifique seu e-mail para confirmar.".

Definition handleSubmit (f : Form) (service : Service) : Submitted :=
  if f.(isLogin) then
    match service.(signInWithPassword) with
    | Failed message => caught f message []
    | Answered None =>
        {| error := ""; nowLogin := true; loggedIn := None;
           profileSent := None; console := []; loading := false |}
    | Answered (Some u) =>
        match service.(selectProfile) with
        | Failed _ => caught f (Some profileError) [FetchingProfile]
        | Answered p =>
            {| error := ""; nowLogin := true;
               loggedIn := Some (sessionUser u p);
               profileSent := None; console := []; loading := false |}
        end
    end
  else
    let role := signUpRole f in
    match service.(authSignUp) with
    | Failed message => caught f message []
    | Answered None =>
        {| error := ""; nowLogin := false; loggedIn := None;
           profileSent := None; console := []; loading := false |}
    | Answered (Some userId) =>
        {| error := createdMessage role; nowLogin := true;
           loggedIn := None;
           profileSent := Some (profile f userId);
           console :=
             match service.(insertProfile) with
             | Some _ => [CreatingProfile]
             | None => []
             end;
           loading := false |}
    end.

End LoginSubmit.

(* ================================================================= *)
(** ** [DailyCollections]: [handlePayment] *)

Module DailyCollections.
Import Binary64.

Record Collection : Type := {
  installmentId : Z;
  clientName : string;
  clientPhone : string;
  clientAddress : option string;
  pending_value : number;
  paid_amount : number;
  due_date : string;
  installmentStatus : string;
  payment_method : string;
  loanCapital : number;
  loanDebt : number
}.

Inductive PaymentKind : Type := FULL | PARTIAL | INTEREST.
Inductive PaymentMethod : Type := PIX | CASH.

(** The payload of [register_payment_final]. *)
Record Payload : Type := {
  p_installment_id : Z;
  p_amount : number;
  p_type : PaymentKind;
  p_method : PaymentMethod;
  p_created_by : string
}.

(** The state [handlePayment] reads and writes. *)
Record State : Type := {
  selectedCollection : option Collection;
  paymentAmount : string;
  paymentMethod : PaymentMethod
}.

Inductive PaymentAlert : Type :=
| Registered                     (* 'Pagamento registrado com sucesso!' *)
| RegisterFailed (detail : string). (* 'Erro ao registrar pagamento: ' + detail *)

(** One run: the call made if any, the alert shown if any, the state
    left, and whether the list was fetched again. *)
Record Run : Type := {
  called : option Payload;
  alerted : option PaymentAlert;
  left : State;
  refetched : bool
}.

Definition nothingDone (st : State) : Run :=
  {| called := None; alerted := None; left := st; refetched := false |}.

Definition connectionError : string := "Erro de conexão".

(** [err.message || 'Erro de conexão'] *)
Definition detailOf (message : option string) : string :=
  match message with
  | Some s => if String.eqb s "" then connectionError else s
  | None => connectionError
  end.

(** [isNaN(amount) || amount <= 0] *)
Definition rejected (amount : number) : bool :=
  is_nan amount || SFleb amount (ofZ 0).

Section Payment.
Context {G : Globals number}.

Definition amountOf (type : PaymentKind) (c : Collection) (typed : string)
  : number :=
  match type with
  | FULL => c.(pending_value)
  | _ => parseFloat typed
  end.

(** [rpc] is the data service: [Some message] when the call reports an
    error, with the message the error carries if any. *)
Definition handlePayment
    (user : option User) (rpc : Payload -> option (option string))
    (st : State) (type : PaymentKind) : Run :=
  match st.(selectedCollection), user with
  | Some c, Some u =>
      let amount := amountOf type c st.(paymentAmount) in
      if rejected amount then nothingDone st
      else
        let payload :=
          {| p_installment_id := c.(installmentId);
             p_amount := amount;
             p_type := type;
             p_method := st.(paymentMethod);
             p_created_by := u.(id) |} in
        match rpc payload with
        | Some message =>
            {| called := Some payload;
               alerted := Some (RegisterFailed (detailOf message));
               left := st; refetched := false |}
        | None =>
            {| called := Some payload;
               alerted := Some Registered;
               left := {| selectedCollection := None;
                          paymentAmount := "";
                          paymentMethod := st.(paymentMethod) |};
               refetched := true |}
        end
  | _, _ => nothingDone st
  end.

End Payment.

(** *** The reminder *)

Definition todayMessage (clientName : string) : string :=
  "Olá " ++ clientName
    ++ ", passando para lembrar do seu pagamento de hoje. Qualquer dúvida estou à disposição!".

(** [sendWhatsApp]: the link given to [window.open]. *)
Definition sendWhatsApp (collection : Collection) : string :=
  LateActions.whatsAppUrl collection.(clientPhone)
    (todayMessage collection.(clientName)).

(** [copyMessage]: the text put on the clipboard. *)
Definition copyMessage (collection : Collection) : string :=
  "Olá " ++ collection.(clientName)
    ++ ", passando para lembrar do seu pagamento de hoje.".

(** *** [fetchClientDetails] *)

Record ClientDetails : Type := {
  totalLoaned : number;
  totalDebt : number
}.

(** [answer] is the row of [clients_summary] for the client's name, or
    [None] when the query fails (also when the name matches no row or
    several).  The result is the new [clientDetails]. *)
Definition fetchClientDetails
    (selected : option Collection) (answer : option ClientDetails)
  : option ClientDetails :=
  match selected with
  | None => None
  | Some c =>
      match answer with
      | Some data =>
          if SFeqb data.(totalLoaned) (ofZ 0) && SFltb (ofZ 0) c.(pending_value)
          then Some {| totalLoaned := data.(totalLoaned);
                       totalDebt := data.(totalDebt) |}
          else Some {| totalLoaned := data.(totalLoaned);
                       totalDebt := data.(totalDebt) |}
      | None =>
          Some {| totalLoaned := c.(loanCapital);
                  totalDebt := c.(loanDebt) |}
      end
  end.

End DailyCollections.

(* ================================================================= *)
(** ** Signs, and more sample inputs *)

(** Zero of either sign, or a Number or an infinity with the sign bit
    clear: the Numbers that are [>= 0]. *)
Definition nonNegative (x : Binary64.number) : bool :=
  match x with
  | S754_zero _ => true
  | S754_infinity s | S754_finite s _ _ => negb s
  | S754_nan => false
  end.

Module MoreSamples.

(** 1000 at no interest in 24 installments. *)
Definition loanNoRate : NewLoan := Samples.form "1000" "0" "24".

(** The largest Number in 3 installments, and the smallest in 2, both
    at no interest. *)
Definition loanLargest : NewLoan :=
  Samples.form "1.7976931348623157e308" "0" "3".
Definition loanSmallest : NewLoan := Samples.form "5e-324" "0" "2".

Definition rows : list LatePayments.LatePayment :=
  [Samples.late "Ana" 1699000000000; Samples.late "Rui" 1699900000000].

Definition paid (value : Z) : Renegotiate.Installment := {|
  Renegotiate.amount := Binary64.ofZ value;
  Renegotiate.paid_amount := Binary64.ofZ value;
  Renegotiate.status := "PAID";
  Renegotiate.due_date := "2024-03-15"
|}.

Definition due (value paid : Z) : Renegotiate.Installment := {|
  Renegotiate.amount := Binary64.ofZ value;
  Renegotiate.paid_amount := Binary64.ofZ paid;
  Renegotiate.status := "PENDING";
  Renegotiate.due_date := "2024-04-15"
|}.

(** A loan with 60 left to pay, and one with nothing left. *)
Definition loanOpen : Renegotiate.Loan := {|
  Renegotiate.id := 7;
  Renegotiate.capital := Binary64.ofZ 1000;
  Renegotiate.installments := [paid 100; due 100 40]
|}.

Definition loanSettled : Renegotiate.Loan := {|
  Renegotiate.id := 8;
  Renegotiate.capital := Binary64.ofZ 500;
  Renegotiate.installments := [paid 100; due 50 50]
|}.

Definition noAnswer : LoginSubmit.Service := {|
  LoginSubmit.signInWithPassword :=
    LoginSubmit.Failed (Some "Invalid login credentials"%string);
  LoginSubmit.selectProfile := LoginSubmit.Failed None;
  LoginSubmit.authSignUp := LoginSubmit.Answered (Some "u-2"%string);
  LoginSubmit.insertProfile := None
|}.

End MoreSamples.


Unset Implicit Arguments.

(* ================================================================= *)
(** * Properties of the delinquency listing *)

Module LatePaymentsFacts.
Import LatePayments.
Local Open Scope Z_scope.

Lemma geq_Some (d k : Z) : geq (Some d) k = true <-> k <= d.
Proof. unfold geq. apply Z.leb_le. Qed.

Lemma geq_Some_false (d k : Z) : geq (Some d) k = false <-> d < k.
Proof. unfold geq. apply Z.leb_gt. Qed.

Lemma msPerDay_value : msPerDay = 86400000.
Proof. reflexivity. Qed.

Lemma daysLate_Some (D now : Z) :
  daysLate (Some D) now = Some ((now - D) / msPerDay).
Proof. reflexivity. Qed.

(** An invalid date gives NaN days, which no threshold accepts. *)
Lemma daysLate_NaN (now : Z) : daysLate None now = None.
Proof. reflexivity. Qed.

(** [getDaysLate] is [daysLate] at the first reading of the clock, and
    it uses that reading up. *)
Lemma getDaysLate_reads (date : integral) (c : Clock) :
  getDaysLate date c = (daysLate date (c O), fun n => c (S n)).
Proof. reflexivity. Qed.

(** A case analysis of [classify] on a day count, by the thresholds. *)
Lemma classify_cases (d : Z) :
  (d < 7 /\ classify (Some d) = CURRENT) \/
  (7 <= d < 30 /\ classify (Some d) = WARNING) \/
  (30 <= d /\ classify (Some d) = CRITICAL).
Proof.
  unfold classify, isCritical, isWarning.
  destruct (geq (Some d) 30) eqn:H30.
  - apply geq_Some in H30. right; right. split; [lia | reflexivity].
  - apply geq_Some_false in H30.
    destruct (geq (Some d) 7) eqn:H7.
    + apply geq_Some in H7. right; left. split; [lia | reflexivity].
    + apply geq_Some_false in H7. left. split; [lia | reflexivity].
Qed.

Ltac by_classify d :=
  let H := fresh "H" in
  destruct (classify_cases d) as [[H ->] | [[H ->] | [H ->]]].

(** The four styled places all select by the tier of the day count. *)
Lemma styles_follow_classify (days : integral) :
  cardClass days =
    match classify days with
    | CRITICAL => "shadow-glow-rose border-fin-rose/20"
    | WARNING => "shadow-glow-amber border-fin-amber/20"
    | CURRENT => "shadow-glow-blue"
    end%string /\
  avatarClass days =
    match classify days with
    | CRITICAL => "bg-fin-rose/20 text-fin-rose border-fin-rose/30"
    | WARNING => "bg-fin-amber/20 text-fin-amber border-fin-amber/30"
    | CURRENT => "bg-white/5 text-slate-300 border-white/10"
    end%string /\
  debtClass days =
    match classify days with
    | CRITICAL => "text-fin-rose"
    | WARNING => "text-fin-amber"
    | CURRENT => "text-white"
    end%string /\
  clockClass days =
    match classify days with
    | CRITICAL => "text-fin-rose"
    | WARNING => "text-fin-amber"
    | CURRENT => "text-fin-blue"
    end%string.
Proof.
  unfold cardClass, avatarClass, debtClass, clockClass, classify.
  destruct (isCritical days), (isWarning days); repeat split.
Qed.

Lemma bind_run {A B} (m : Reading A) (k : A -> Reading B) (c : Clock) :
  bind m k c = k (fst (m c)) (snd (m c)).
Proof. unfold bind. destruct (m c). reflexivity. Qed.

(** While the clock stands still at [now], [filteredLate] keeps exactly
    the rows whose days late pass [matchesFilter]. *)
Lemma filteredLate_still_clock
    (now filter : Z) (latePayments : list LatePayment) :
  forall c : Clock,
    (forall n, c n = now) ->
    fst (filteredLate latePayments filter c)
      = List.filter
          (fun lp => matchesFilter (daysLate lp.(oldestDueDate) now) filter)
          latePayments /\
    (forall n, snd (filteredLate latePayments filter c) n = now).
Proof.
  unfold filteredLate.
  induction latePayments as [| lp rest IH]; intros c Hc.
  - split; [reflexivity | exact Hc].
  - cbn [filterM List.filter].
    rewrite bind_run.
    change (bind (getDaysLate (oldestDueDate lp))
              (fun days => ret (matchesFilter days filter)) c)
      with (matchesFilter (daysLate (oldestDueDate lp) (c O)) filter,
            fun n => c (S n)).
    cbn [fst snd]. rewrite bind_run.
    destruct (IH (fun n => c (S n)) (fun n => Hc (S n))) as [IH1 IH2].
    rewrite IH1, Hc. split; [reflexivity | exact IH2].
Qed.

Lemma filteredLate_still_clock_witness :
  fst (filteredLate
         [Samples.late "Ana" 1699000000000; Samples.late "Rui" 1699900000000]
         7 (fun _ => 1700000000000))
  = [Samples.late "Ana" 1699000000000].
Proof.
  apply (proj1 (filteredLate_still_clock 1700000000000 7
                  [Samples.late "Ana" 1699000000000;
                   Samples.late "Rui" 1699900000000]
                  (fun _ => 1700000000000) (fun _ => eq_refl))).
Defined.

(** C4: for every integer day count the tier is CRITICAL exactly from 30
    days on, WARNING exactly from 7 to 29 days, and CURRENT otherwise
    (below 7); 6 days is CURRENT, 7 and 29 are WARNING, 30 is CRITICAL;
    and whenever the critical test holds the tier is CRITICAL, although
    the warning test holds as well. *)
Theorem classify_tiers :
  (forall d : Z,
      (classify (Some d) = CRITICAL <-> 30 <= d) /\
      (classify (Some d) = WARNING <-> 7 <= d < 30) /\
      (classify (Some d) = CURRENT <-> d < 7)) /\
  classify (Some 6) = CURRENT /\
  classify (Some 7) = WARNING /\
  classify (Some 29) = WARNING /\
  classify (Some 30) = CRITICAL /\
  (forall days : integral,
      isCritical days = true ->
      isWarning days = true /\ classify days = CRITICAL).
Proof.
  split; [| repeat split].
  - intro d. by_classify d; repeat split; intros; try lia; try discriminate.
  - destruct days as [d |]; [| discriminate].
    unfold isCritical, isWarning in *.
    apply geq_Some in H. apply geq_Some. lia.
  - unfold classify. rewrite H. reflexivity.
Qed.

(** C5: for every integer day count and every threshold among 0, 3, 7
    and 30, the filter keeps the row exactly when the threshold is 0 or
    the day count is at least the threshold; 5 days pass the 3-day
    filter, 2 days do not, and threshold 0 keeps every row (also one
    whose date is invalid). *)
Theorem matchesFilter_thresholds :
  (forall d threshold : Z,
      In threshold filterButtons ->
      (matchesFilter (Some d) threshold = true <->
       threshold = 0 \/ threshold <= d)) /\
  matchesFilter (Some 5) 3 = true /\
  matchesFilter (Some 2) 3 = false /\
  (forall days : integral, matchesFilter days 0 = true).
Proof.
  split; [| repeat split].
  intros d t Ht. unfold filterButtons in Ht. simpl in Ht.
  destruct Ht as [<- | [<- | [<- | [<- | []]]]];
    unfold matchesFilter; simpl Z.eqb; cbv iota;
    rewrite ?geq_Some; split; intros; try lia; auto.
Qed.

Lemma matchesFilter_thresholds_witness :
  matchesFilter (Some 5) 3 = true <-> 3 = 0 \/ 3 <= 5.
Proof.
  apply (proj1 matchesFilter_thresholds 5 3).
  simpl. right; left. reflexivity.
Defined.

Lemma classify_tiers_witness :
  isWarning (Some 45) = true /\ classify (Some 45) = CRITICAL.
Proof.
  apply (proj2 (proj2 (proj2 (proj2 (proj2 classify_tiers)))) (Some 45)).
  reflexivity.
Defined.

(** C8: the tier never decreases when the day count grows (in the order
    CURRENT < WARNING < CRITICAL), and the only thresholds are the
    constants 3, 7 and 30: the tier changes between d - 1 and d days
    exactly at d = 7 and d = 30, and a filter value hides some row
    exactly when it is 3, 7 or 30, hiding then the rows below that many
    days. *)
Theorem tier_monotone_fixed_thresholds :
  (forall d1 d2 : Z,
      d1 <= d2 -> tier_le (classify (Some d1)) (classify (Some d2))) /\
  (forall d : Z,
      classify (Some (d - 1)) <> classify (Some d) <-> d = 7 \/ d = 30) /\
  (forall filter : Z,
      (exists d : Z, matchesFilter (Some d) filter = false) <->
      filter = 3 \/ filter = 7 \/ filter = 30) /\
  (forall filter d : Z,
      filter = 3 \/ filter = 7 \/ filter = 30 ->
      matchesFilter (Some d) filter = (filter <=? d)).
Proof.
  repeat split.
  - intros d1 d2 Hle. unfold tier_le.
    by_classify d1; by_classify d2; simpl; lia.
  - by_classify (d - 1); by_classify d; intro Hne;
      try (exfalso; apply Hne; reflexivity); lia.
  - intros [-> | ->]; discriminate.
  - intros [d Hd]. unfold matchesFilter in Hd.
    destruct (Z.eqb_spec filter 3); [auto |].
    destruct (Z.eqb_spec filter 7); [auto |].
    destruct (Z.eqb_spec filter 30); [auto | discriminate].
  - intros [-> | [-> | ->]]; exists 0; reflexivity.
  - intros filter d [-> | [-> | ->]]; reflexivity.
Qed.

Lemma tier_monotone_fixed_thresholds_witness :
  tier_le (classify (Some 6)) (classify (Some 31)).
Proof.
  apply (proj1 tier_monotone_fixed_thresholds 6 31). lia.
Defined.

(** C3, as the claim states it, fails: a due date one day after the
    clock reading gives -1 day, not 0. *)
Lemma daysLate_future_negative :
  daysLate (Some 1700086400000) 1700000000000 = Some (-1) /\
  fst (getDaysLate (Some 1700086400000) (fun _ => 1700000000000))
    = Some (-1).
Proof. split; reflexivity. Qed.

(** C3, amended: for every due date D and reference time now the result
    is floor((now - D) / 1 day), with no clamping: it is at least 0
    exactly when D <= now and at most -1 exactly when D > now.  Only
    the tier and the filter treat a negative count as they treat 0. *)
Theorem daysLate_floor_unclamped :
  forall D now : Z,
    daysLate (Some D) now = Some ((now - D) / 86400000) /\
    (D <= now <-> 0 <= (now - D) / 86400000) /\
    (now < D <-> (now - D) / 86400000 <= -1) /\
    classify (daysLate (Some D) now)
      = classify (Some (Z.max 0 ((now - D) / 86400000))) /\
    (forall filter : Z,
        matchesFilter (daysLate (Some D) now) filter
          = matchesFilter (Some (Z.max 0 ((now - D) / 86400000))) filter).
Proof.
  intros D now. split; [reflexivity |].
  assert (H : 0 < 86400000) by lia.
  pose proof (Z.div_pos (now - D) 86400000).
  pose proof (Z.div_lt_upper_bound (now - D) 86400000 0 H).
  pose proof (Z.div_le_lower_bound (now - D) 86400000 0 H).
  pose proof (Z.mul_div_le (now - D) 86400000 H).
  rewrite daysLate_Some, msPerDay_value.
  set (d := (now - D) / 86400000) in *.
  repeat split; intros; try lia.
  - destruct (Z.max_spec 0 d) as [[Hd ->] | [Hd ->]]; [reflexivity |].
    by_classify d; by_classify 0; lia || reflexivity.
  - destruct (Z.max_spec 0 d) as [[Hd ->] | [Hd ->]]; [reflexivity |].
    unfold matchesFilter, geq.
    destruct (filter =? 3); [destruct (3 <=? d) eqn:E; [lia | reflexivity] |].
    destruct (filter =? 7); [destruct (7 <=? d) eqn:E; [lia | reflexivity] |].
    destruct (filter =? 30); [destruct (30 <=? d) eqn:E; [lia | reflexivity] |].
    reflexivity.
Qed.

End LatePaymentsFacts.

(* ================================================================= *)
(** * Properties of Binary64 arithmetic

    What rounding can and cannot produce: a rounded non-negative
    mantissa is never NaN, and it is finite when its magnitude stays
    below the largest Number. *)

Module Binary64Facts.
Import Binary64.
Local Open Scope Z_scope.

Section Rounding.
Variables prec emax : Z.

Lemma iter_pos_invariant {A} (P : A -> Prop) (f : A -> A) :
  (forall x, P x -> P (f x)) ->
  forall n x, P x -> P (iter_pos f n x).
Proof.
  intros Hf. induction n as [n IH | n IH |]; intros x Hx; simpl; auto.
Qed.

Lemma shr_1_nonneg mrs : 0 <= shr_m mrs -> 0 <= shr_m (shr_1 mrs).
Proof.
  destruct mrs as [m r s]. simpl.
  destruct m as [| [p | p |] | p]; simpl; lia.
Qed.

Lemma shr_nonneg mrs e n : 0 <= shr_m mrs -> 0 <= shr_m (fst (shr mrs e n)).
Proof.
  intros H. destruct n; simpl; auto.
  apply (iter_pos_invariant (fun x => 0 <= shr_m x)); auto using shr_1_nonneg.
Qed.

Lemma shr_record_of_loc_m m l : shr_m (shr_record_of_loc m l) = m.
Proof. destruct l as [| []]; reflexivity. Qed.

Lemma shr_fexp_nonneg m e l :
  0 <= m -> 0 <= shr_m (fst (shr_fexp prec emax m e l)).
Proof.
  intros H. unfold shr_fexp. apply shr_nonneg.
  rewrite shr_record_of_loc_m. exact H.
Qed.

Lemma round_nearest_even_nonneg m l : 0 <= m -> 0 <= round_nearest_even m l.
Proof.
  intros H. destruct l as [| []]; simpl; try lia.
  destruct (Z.even m); lia.
Qed.

Lemma binary_round_aux_not_nan sx mx ex lx :
  0 <= mx -> binary_round_aux prec emax sx mx ex lx <> S754_nan.
Proof.
  intros H. unfold binary_round_aux.
  pose proof (shr_fexp_nonneg mx ex lx H) as H1.
  destruct (shr_fexp prec emax mx ex lx) as [mrs' e']. simpl in H1.
  pose proof (round_nearest_even_nonneg _ (loc_of_shr_record mrs') H1) as H2.
  pose proof (shr_fexp_nonneg _ e' loc_Exact H2) as H3.
  destruct (shr_fexp prec emax _ e' loc_Exact) as [mrs'' e'']. simpl in H3.
  destruct (shr_m mrs'') as [| m | m]; try discriminate; try lia.
  destruct (e'' <=? emax - prec); discriminate.
Qed.

End Rounding.




Section Magnitude.
Variables prec emax : Z.

Lemma digits2_pos_size p : digits2_pos p = Pos.size p.
Proof. induction p; simpl; congruence. Qed.

Lemma Zdigits2_nonneg m : 0 <= Zdigits2 m.
Proof. destruct m; simpl; lia. Qed.

Lemma Zdigits2_gt m : 0 <= m -> m < 2 ^ Zdigits2 m.
Proof.
  destruct m as [| p | p]; simpl; intros H; try lia.
  rewrite digits2_pos_size.
  pose proof (Pos.size_gt p) as Hp.
  apply Pos2Z.pos_lt_pos in Hp. rewrite Pos2Z.inj_pow in Hp. exact Hp.
Qed.

Lemma Zdigits2_le_pos p : 2 ^ (Zpos (digits2_pos p) - 1) <= Zpos p.
Proof.
  rewrite digits2_pos_size.
  pose proof (Pos.size_le p) as Hp.
  apply Pos2Z.pos_le_pos in Hp. rewrite Pos2Z.inj_pow in Hp.
  replace (Zpos (Pos.size p)) with (Z.succ (Zpos (Pos.size p) - 1)) in Hp by lia.
  rewrite Z.pow_succ_r in Hp by lia. lia.
Qed.

Lemma Zdigits2_upper m n : 0 <= m < 2 ^ n -> 0 <= n -> Zdigits2 m <= n.
Proof.
  intros [H0 Hm] Hn. destruct m as [| p | p]; simpl; try lia.
  pose proof (Zdigits2_le_pos p) as Hp.
  assert (Hlt : 2 ^ (Zpos (digits2_pos p) - 1) < 2 ^ n) by lia.
  apply Z.pow_lt_mono_r_iff in Hlt; lia.
Qed.

Lemma Zdigits2_succ m : 0 <= m -> Zdigits2 (m + 1) <= Zdigits2 m + 1.
Proof.
  intros H. pose proof (Zdigits2_gt m H) as Hm.
  pose proof (Zdigits2_nonneg m) as Hd.
  apply Zdigits2_upper; [| lia].
  rewrite Z.pow_add_r by lia. simpl (2 ^ 1). lia.
Qed.

Lemma shr_1_digits mrs :
  0 <= shr_m mrs ->
  Zdigits2 (shr_m (shr_1 mrs)) = Z.max 0 (Zdigits2 (shr_m mrs) - 1).
Proof.
  destruct mrs as [m r s].
  destruct m as [| [p | p |] | p];
    cbn [shr_1 shr_m Zdigits2 digits2_pos]; intros H;
    rewrite ?Pos2Z.inj_succ; lia.
Qed.

Lemma iter_shr_1 n : forall mrs,
  0 <= shr_m mrs ->
  0 <= shr_m (iter_pos shr_1 n mrs) /\
  Zdigits2 (shr_m (iter_pos shr_1 n mrs))
    = Z.max 0 (Zdigits2 (shr_m mrs) - Zpos n).
Proof.
  induction n as [n IH | n IH |]; intros mrs H; simpl.
  - pose proof (shr_1_nonneg mrs H) as H1.
    pose proof (shr_1_digits mrs H) as D1.
    destruct (IH _ H1) as [H2 D2]. destruct (IH _ H2) as [H3 D3].
    split; [exact H3 |]. rewrite D3, D2, D1. lia.
  - destruct (IH _ H) as [H2 D2]. destruct (IH _ H2) as [H3 D3].
    split; [exact H3 |]. rewrite D3, D2. lia.
  - split; [apply shr_1_nonneg; exact H |].
    rewrite shr_1_digits by exact H. reflexivity.
Qed.

(** The exponent [shr_fexp] leaves, and the magnitude it keeps. *)
Lemma shr_fexp_magnitude m e l :
  0 <= m ->
  let '(mrs, e1) := shr_fexp prec emax m e l in
  0 <= shr_m mrs /\
  e1 = Z.max e (fexp prec emax (Zdigits2 m + e)) /\
  Zdigits2 (shr_m mrs) + e1 = Z.max e1 (Zdigits2 m + e).
Proof.
  intros H. unfold shr_fexp, shr.
  pose proof (Zdigits2_nonneg m) as Hd.
  destruct (fexp prec emax (Zdigits2 m + e) - e) as [| n | n] eqn:Hn;
    rewrite ?shr_record_of_loc_m.
  - repeat split; lia.
  - destruct (iter_shr_1 n (shr_record_of_loc m l)) as [H1 D1].
    { rewrite shr_record_of_loc_m. exact H. }
    rewrite shr_record_of_loc_m in D1.
    repeat split; [exact H1 | lia | lia].
  - repeat split; lia.
Qed.

Lemma round_nearest_even_le m l :
  0 <= m -> Zdigits2 (round_nearest_even m l) <= Zdigits2 m + 1.
Proof.
  intros H. pose proof (Zdigits2_succ m H).
  destruct l as [| []]; simpl; try lia.
  destruct (Z.even m); lia.
Qed.
End Magnitude.

(** A rounded value whose magnitude is below the largest Number is finite. *)
Lemma binary_round_aux_finite sx mx ex lx :
  0 <= mx -> ex <= 970 -> Zdigits2 mx + ex <= 1023 ->
  isFinite (binary_round_aux prec emax sx mx ex lx) = true.
Proof.
  intros H He Hd. unfold binary_round_aux.
  pose proof (shr_fexp_magnitude prec emax mx ex lx H) as H1.
  destruct (shr_fexp prec emax mx ex lx) as [mrs' e'].
  destruct H1 as (N1 & E1 & D1).
  pose proof (round_nearest_even_nonneg _ (loc_of_shr_record mrs') N1) as N2.
  pose proof (round_nearest_even_le _ (loc_of_shr_record mrs') N1) as D2.
  pose proof (shr_fexp_magnitude prec emax _ e' loc_Exact N2) as H3.
  destruct (shr_fexp prec emax _ e' loc_Exact) as [mrs'' e''].
  destruct H3 as (N3 & E3 & D3).
  destruct (shr_m mrs'') as [| m | m]; try reflexivity; try lia.
  assert (Hle : e'' <= emax - prec).
  { unfold fexp, SpecFloat.emin, prec, emax in *. lia. }
  apply Z.leb_le in Hle. rewrite Hle. reflexivity.
Qed.

Lemma quotient_digits (mx my : positive) (s : Z) :
  0 <= s ->
  let q := (Zpos mx * 2 ^ s) / Zpos my in
  0 <= q /\
  Zdigits2 q
    <= Z.max 0 (Zpos (digits2_pos mx) + s - Zpos (digits2_pos my) + 1).
Proof.
  intros Hs q.
  assert (Hq : 0 <= q) by (apply Z.div_pos; [apply Z.mul_nonneg_nonneg; [lia | apply Z.pow_nonneg; lia] | lia]).
  split; [exact Hq |].
  set (d1 := Zpos (digits2_pos mx)). set (d2 := Zpos (digits2_pos my)).
  pose proof (Zdigits2_gt (Zpos mx) ltac:(lia)) as Hx. cbn [Zdigits2] in Hx.
  pose proof (Zdigits2_le_pos my) as Hy.
  fold d1 in Hx. fold d2 in Hy.
  assert (Hd1 : 0 < d1) by (unfold d1; lia).
  assert (Hd2 : 0 < d2) by (unfold d2; lia).
  pose proof (Z.mul_div_le (Zpos mx * 2 ^ s) (Zpos my) ltac:(lia)) as Hqm.
  fold q in Hqm.
  assert (Hps : 0 < 2 ^ s) by (apply Z.pow_pos_nonneg; lia).
  assert (Hp2 : 0 < 2 ^ (d2 - 1)) by (apply Z.pow_pos_nonneg; lia).
  assert (Hlt : q * 2 ^ (d2 - 1) < 2 ^ (d1 + s)).
  { rewrite Z.pow_add_r by lia. nia. }
  apply Zdigits2_upper; [split; [exact Hq |] | lia].
  destruct (Z.max_spec 0 (d1 + s - d2 + 1)) as [[Hc ->] | [Hc ->]].
  - replace (d1 + s) with ((d1 + s - d2 + 1) + (d2 - 1)) in Hlt by lia.
    rewrite Z.pow_add_r in Hlt by lia. nia.
  - assert (Hpp : 2 ^ (d1 + s) <= 2 ^ (d2 - 1))
      by (apply Z.pow_le_mono_r; lia).
    simpl (2 ^ 0). nia.
Qed.

Lemma SFdiv_finite sx mx ex sy my ey :
  Zpos (digits2_pos mx) + ex - (Zpos (digits2_pos my) + ey) <= 1022 ->
  isFinite (SFdiv prec emax (S754_finite sx mx ex) (S754_finite sy my ey))
    = true.
Proof.
  intros HD. cbn [SFdiv]. unfold SFdiv_core_binary. cbn [Zdigits2].
  set (d1 := Zpos (digits2_pos mx)) in *.
  set (d2 := Zpos (digits2_pos my)) in *.
  set (e' := Z.min (fexp prec emax (d1 + ex - (d2 + ey))) (ex - ey)).
  set (s := ex - ey - e').
  assert (Hs : 0 <= s) by (unfold s, e'; lia).
  set (m' := match s with Z0 => Zpos mx | Zpos _ => Z.shiftl (Zpos mx) s | Zneg _ => 0 end).
  assert (Hm : m' = Zpos mx * 2 ^ s).
  { unfold m'. destruct s as [| p | p] eqn:E; try lia.
    rewrite Z.shiftl_mul_pow2 by lia. reflexivity. }
  destruct (quotient_digits mx my s Hs) as [Hq Hdq].
  rewrite <- Hm in Hq, Hdq. fold d1 d2 in Hdq.
  unfold Z.div in Hq, Hdq.
  destruct (Z.div_eucl m' (Zpos my)) as [q r].
  apply binary_round_aux_finite; [exact Hq | |].
  - unfold e', fexp, SpecFloat.emin, prec, emax. lia.
  - unfold s in Hdq. unfold e', fexp, SpecFloat.emin, prec, emax in *. lia.
Qed.

Lemma valid_magnitude sx mx ex :
  valid_binary prec emax (S754_finite sx mx ex) = true ->
  Zpos (digits2_pos mx) + ex <= 1024.
Proof.
  cbn [valid_binary]. unfold bounded, canonical_mantissa.
  intros H. apply andb_true_iff in H. destruct H as [H1 H2].
  apply Z.eqb_eq in H1. apply Z.leb_le in H2.
  unfold fexp, SpecFloat.emin, prec, emax in *. lia.
Qed.

Lemma div_100_finite x :
  valid_binary prec emax x = true -> isFinite x = true ->
  isFinite (SFdiv prec emax x (ofZ 100)) = true.
Proof.
  intros Hv Hf.
  change (ofZ 100) with (S754_finite false 7036874417766400 (-46)).
  destruct x as [sx | sx | | sx mx ex]; try discriminate; try reflexivity.
  apply SFdiv_finite. apply valid_magnitude in Hv.
  change (Zpos (digits2_pos 7036874417766400)) with 53. lia.
Qed.

End Binary64Facts.


(* ================================================================= *)
(** * Properties of the loan form, on Binary64 *)

Module LoansFacts.
Import Binary64 Binary64Facts.
Local Open Scope js_scope.

Ltac same_zero :=
  first [left; reflexivity | right; split; reflexivity].

Lemma SameValueZero_refl (a : number) : SameValueZero a a.
Proof. left. reflexivity. Qed.

Lemma is_zero_inv (a : number) : is_zero a = true -> exists s, a = S754_zero s.
Proof. destruct a; try discriminate. intros _. eexists. reflexivity. Qed.

(** Multiplication and addition cannot tell the two zeros apart, nor can
    division in its dividend. *)
Lemma mul_SameValueZero (a a' b b' : number) :
  SameValueZero a a' -> SameValueZero b b' ->
  SameValueZero (SFmul prec emax a b) (SFmul prec emax a' b').
Proof.
  intros [-> | [Za Za']] [-> | [Zb Zb']]; [same_zero | | |].
  - apply is_zero_inv in Zb, Zb'. destruct Zb as [s ->], Zb' as [s' ->].
    destruct a'; cbn [SFmul]; same_zero.
  - apply is_zero_inv in Za, Za'. destruct Za as [s ->], Za' as [s' ->].
    destruct b'; cbn [SFmul]; same_zero.
  - apply is_zero_inv in Za, Za', Zb, Zb'.
    destruct Za as [s ->], Za' as [s' ->], Zb as [t ->], Zb' as [t' ->].
    cbn [SFmul]; same_zero.
Qed.

Lemma add_SameValueZero (a a' b b' : number) :
  SameValueZero a a' -> SameValueZero b b' ->
  SameValueZero (SFadd prec emax a b) (SFadd prec emax a' b').
Proof.
  intros [-> | [Za Za']] [-> | [Zb Zb']]; [same_zero | | |].
  - apply is_zero_inv in Zb, Zb'. destruct Zb as [s ->], Zb' as [s' ->].
    destruct a' as [u | u | | u m e]; cbn [SFadd]; try same_zero.
    destruct u, s, s'; same_zero.
  - apply is_zero_inv in Za, Za'. destruct Za as [s ->], Za' as [s' ->].
    destruct b' as [u | u | | u m e]; cbn [SFadd]; try same_zero.
    destruct u, s, s'; same_zero.
  - apply is_zero_inv in Za, Za', Zb, Zb'.
    destruct Za as [s ->], Za' as [s' ->], Zb as [t ->], Zb' as [t' ->].
    cbn [SFadd]. destruct s, s', t, t'; same_zero.
Qed.

Lemma div_SameValueZero (a a' b : number) :
  SameValueZero a a' ->
  SameValueZero (SFdiv prec emax a b) (SFdiv prec emax a' b).
Proof.
  intros [-> | [Za Za']]; [same_zero |].
  apply is_zero_inv in Za, Za'. destruct Za as [s ->], Za' as [s' ->].
  destruct b; cbn [SFdiv]; same_zero.
Qed.

(** [x || 0] is [x] up to the sign of a zero, unless [x] is NaN. *)
Lemma or_zero_SameValueZero (x : number) :
  is_nan x = false -> SameValueZero (x || lit 0) x.
Proof.
  destruct x; try discriminate; intros _; unfold or_else;
    cbn [ToBoolean binary64 truthy]; [right; split; reflexivity | same_zero ..].
Qed.

Lemma geb_not_nan (x k : number) : geb x k = true -> is_nan x = false.
Proof.
  unfold geb, SFleb. destruct x; try reflexivity.
  destruct k; discriminate.
Qed.

Lemma geb_one_truthy (x : number) : geb x (lit 1) = true -> truthy x = true.
Proof. destruct x; try reflexivity; discriminate. Qed.

Lemma or_else_truthy (x d : number) : truthy x = true -> (x || d) = x.
Proof. unfold or_else. cbn [ToBoolean binary64]. intros ->. reflexivity. Qed.

Lemma or_else_falsy (x d : number) : truthy x = false -> (x || d) = d.
Proof. unfold or_else. cbn [ToBoolean binary64]. intros ->. reflexivity. Qed.

Lemma truthy_spec (x : number) :
  truthy x = negb (is_zero x || is_nan x).
Proof. destruct x; reflexivity. Qed.

Section WithGlobals.
Context (G : Globals number).

Lemma createLoanAmounts_compute (newLoan : NewLoan) :
  createLoanAmounts newLoan =
  compute (parseFloat newLoan.(capital)) (parseFloat newLoan.(interest_rate))
          (parseInt newLoan.(installments_count)).
Proof. reflexivity. Qed.

Lemma preview_compute (newLoan : NewLoan) :
  preview newLoan =
  compute (previewCapital newLoan) (previewRate newLoan)
          (previewCount newLoan).
Proof. reflexivity. Qed.

End WithGlobals.

(** C1: when the parsed principal P and rate R are at least 0 and the
    parsed count N is at least 1, the preview returns
    totalInterest = P * (R / 100), totalAmount = P + totalInterest and
    installmentValue = totalAmount / N (each up to the sign of a zero,
    which [||] drops from a principal or rate of -0); the amounts
    [handleCreateLoan] computes are exactly those, and the row it sends
    carries P, R and N. *)
Theorem amortization_formulas :
  forall (G : Globals number) (newLoan : NewLoan),
    let P := parseFloat newLoan.(capital) in
    let R := parseFloat newLoan.(interest_rate) in
    let N := parseInt newLoan.(installments_count) in
    geb P (lit 0) = true -> geb R (lit 0) = true -> geb N (lit 1) = true ->
    sameAmounts (preview newLoan) (compute P R N) /\
    createLoanAmounts newLoan = compute P R N /\
    (forall user : User,
        row_capital (loanRow newLoan user) = P /\
        row_interest_rate (loanRow newLoan user) = R /\
        row_installments_count (loanRow newLoan user) = N).
Proof.
  intros G newLoan P R N HP HR HN.
  split; [| split; [reflexivity | intro; repeat split]].
  apply geb_not_nan in HP, HR. apply geb_one_truthy in HN.
  pose proof (or_zero_SameValueZero P HP) as SP.
  pose proof (or_zero_SameValueZero R HR) as SR.
  unfold sameAmounts, preview, compute, previewCapital, previewRate,
    previewCount.
  cbn [totalInterest totalAmount installmentValue].
  fold P R N. rewrite (or_else_truthy N _ HN).
  cbn [mul add div binary64].
  assert (SI : SameValueZero
                 (SFmul prec emax (P || lit 0)
                    (SFdiv prec emax (R || lit 0) (lit 100)))
                 (SFmul prec emax P (SFdiv prec emax R (lit 100)))).
  { apply mul_SameValueZero; [exact SP | apply div_SameValueZero; exact SR]. }
  assert (SA : SameValueZero
                 (SFadd prec emax (P || lit 0)
                    (SFmul prec emax (P || lit 0)
                       (SFdiv prec emax (R || lit 0) (lit 100))))
                 (SFadd prec emax P
                    (SFmul prec emax P (SFdiv prec emax R (lit 100))))).
  { apply add_SameValueZero; assumption. }
  repeat split; [exact SI | exact SA | apply div_SameValueZero; exact SA].
Qed.

Lemma amortization_formulas_witness :
  sameAmounts (preview (G := Parse.globals) Samples.loan24)
    (compute (N := binary64) (ofZ 1000) (ofZ 10) (ofZ 24)).
Proof.
  apply (amortization_formulas Parse.globals Samples.loan24); reflexivity.
Defined.

(** The divisor of the preview: 1 for a count that is zero or NaN, the
    parsed count otherwise. *)
Lemma previewCount_cases (G : Globals number) (newLoan : NewLoan) :
  let N := parseInt newLoan.(installments_count) in
  (truthy N = false /\ previewCount newLoan = lit 1) \/
  (truthy N = true /\ previewCount newLoan = N).
Proof.
  intros N. unfold previewCount. fold N.
  destruct (truthy N) eqn:T.
  - right. split; [reflexivity | apply or_else_truthy; exact T].
  - left. split; [reflexivity | apply or_else_falsy; exact T].
Qed.

Lemma previewCount_divisor (G : Globals number) (newLoan : NewLoan) :
  is_zero (previewCount newLoan) = false /\
  is_nan (previewCount newLoan) = false.
Proof.
  destruct (previewCount_cases G newLoan) as [[_ ->] | [T ->]].
  - split; reflexivity.
  - rewrite truthy_spec in T. apply negb_true_iff, orb_false_iff in T.
    exact T.
Qed.

Lemma ltb_zero_truthy (x : number) : ltb x (lit 0) = true -> truthy x = true.
Proof. destruct x as [s | s | | s m e]; try reflexivity; discriminate. Qed.

Lemma falsy_spec (x : number) :
  is_zero x = true \/ is_nan x = true -> truthy x = false.
Proof. rewrite truthy_spec. intros [-> | ->]; [| rewrite orb_true_r]; reflexivity. Qed.

(** Once a client is selected and a user is signed in, [handleCreateLoan]
    computes its amounts and sends the row: it has no check on the
    count. *)
Lemma handleCreateLoan_proceeds
    (G : Globals number) (newLoan : NewLoan) (user : User)
    (insert : LoanRow number -> option string) (today : string) :
  newLoan.(client_id) <> ""%string -> user.(id) <> ""%string ->
  let s := handleCreateLoan (Some user) insert today newLoan in
  computed s = Some (createLoanAmounts newLoan) /\
  inserted s = Some (loanRow newLoan user).
Proof.
  intros Hc Hu. unfold handleCreateLoan.
  apply String.eqb_neq in Hc, Hu. rewrite Hc, Hu.
  destruct (insert (loanRow newLoan user)); split; reflexivity.
Qed.

(** C2, as the claim states it, fails: with a count of 0 nothing is
    rejected.  [handleCreateLoan] reports success, its division gave
    Infinity and the row it sent has 0 installments; the preview divides
    by 1 instead; and a count of -4 divides as it is. *)
Lemma count_zero_not_rejected :
  let created :=
    handleCreateLoan (G := Parse.globals) (Some Samples.collector)
      Samples.accept "2024-03-15" Samples.loanZeroCount in
  alerted created = LoanCreated /\
  computed created =
    Some {| totalInterest := ofZ 100; totalAmount := ofZ 1100;
            installmentValue := Infinity |} /\
  option_map (@row_installments_count number) (inserted created)
    = Some (S754_zero false) /\
  preview (G := Parse.globals) Samples.loanZeroCount =
    {| totalInterest := ofZ 100; totalAmount := ofZ 1100;
       installmentValue := ofZ 1100 |} /\
  preview (G := Parse.globals) Samples.loanNegativeCount =
    {| totalInterest := ofZ 100; totalAmount := ofZ 1100;
       installmentValue := ofZ (-275) |}.
Proof. repeat split; vm_compute; reflexivity. Qed.

(** C2, amended: the preview never fails on the count.  A count that
    parses to 0 or to NaN is replaced by 1 before the division, so the
    amounts are those of a single installment and the divisor is never 0
    or NaN; a negative count is not rejected: it is the divisor as it
    is. *)
Theorem count_guard_is_a_default :
  forall (G : Globals number) (newLoan : NewLoan),
    let N := parseInt newLoan.(installments_count) in
    (is_zero N = true \/ is_nan N = true ->
       previewCount newLoan = lit 1 /\
       preview newLoan =
         compute (previewCapital newLoan) (previewRate newLoan) (lit 1)) /\
    (is_zero (previewCount newLoan) = false /\
     is_nan (previewCount newLoan) = false) /\
    (ltb N (lit 0) = true ->
       previewCount newLoan = N /\
       installmentValue (preview newLoan)
         = totalAmount (preview newLoan) / N).
Proof.
  intros G newLoan N. repeat apply conj.
  - intros H. apply falsy_spec in H.
    assert (E : previewCount newLoan = lit 1)
      by (apply or_else_falsy; exact H).
    split; [exact E |]. rewrite preview_compute, E. reflexivity.
  - apply previewCount_divisor.
  - apply previewCount_divisor.
  - intros H. apply ltb_zero_truthy in H.
    assert (E : previewCount newLoan = N)
      by (apply or_else_truthy; exact H).
    split; [exact E |]. unfold preview. rewrite E. reflexivity.
Qed.

Lemma count_guard_is_a_default_witness :
  previewCount (G := Parse.globals) Samples.loanZeroCount = ofZ 1 /\
  preview (G := Parse.globals) Samples.loanZeroCount =
    compute (ofZ 1000) (ofZ 10) (ofZ 1).
Proof.
  apply (proj1 (count_guard_is_a_default Parse.globals Samples.loanZeroCount)).
  left. reflexivity.
Defined.


Lemma valid_or_zero (x : number) :
  wellFormed x = true -> wellFormed (x || lit 0) = true.
Proof. destruct x; intros H; try reflexivity; exact H. Qed.

Lemma finite_or_else (x d : number) :
  isFinite x = true -> isFinite d = true -> isFinite (x || d) = true.
Proof. destruct x; intros H Hd; try discriminate; try exact Hd; reflexivity. Qed.

Lemma finite_not_nan (x : number) : isFinite x = true -> is_nan x = false.
Proof. destruct x; try discriminate; reflexivity. Qed.




(** The specification's example: 1000 at 10 percent in 24 installments
    gives 100 of interest, 1100 in total and 45.8333... per installment
    (the Number 6450468216285867 * 2^-47). *)
Example preview_loan24 :
  preview (G := Parse.globals) Samples.loan24 =
    {| totalInterest := Binary64.ofZ 100;
       totalAmount := Binary64.ofZ 1100;
       installmentValue := S754_finite false 6450468216285867 (-47) |}.
Proof. vm_compute. reflexivity. Qed.

(** On Binary64 the installments need not add up to the total exactly:
    110 in 25 installments gives back the Number just above 110. *)
Example installments_rounded :
  let shown := preview (G := Parse.globals) Samples.loan25 in
  totalAmount shown = S754_finite false 7740561859543040 (-46) /\
  mul (installmentValue shown) (Binary64.ofZ 25)
    = S754_finite false 7740561859543041 (-46).
Proof. split; vm_compute; reflexivity. Qed.

End LoansFacts.


(* ================================================================= *)
(** * How far rounding moves a value

    A division or a product of Numbers is the exact fraction rounded
    once.  The record of a right shift keeps standing for the same
    fraction, rounding to nearest even moves it by at most half a unit
    of the last place, and the shift that makes room for a carry loses
    nothing: so a result in the normal range is within 2^-53 of the
    exact value, relative to itself. *)

Module RoundingError.
Import Binary64 Binary64Facts Bracket.
Local Open Scope Z_scope.

Lemma shr_1_spec m r s :
  0 <= m ->
  shr_1 {| shr_m := m; shr_r := r; shr_s := s |}
  = {| shr_m := m / 2; shr_r := Z.odd m; shr_s := r || s |}.
Proof.
  intros H. rewrite <- Z.div2_div.
  destruct m as [| [p | p |] | p]; try lia; reflexivity.
Qed.

Lemma shr_1_Rec A B mrs :
  0 <= A -> 0 < B -> Rec A B mrs -> Rec A (B * 2) (shr_1 mrs).
Proof.
  intros HA HB. destruct mrs as [m r s]. unfold Rec. cbn [shr_m shr_r shr_s].
  intros (Hm & Hr & Hs).
  assert (Hq : 0 <= A / B) by (apply Z.div_pos; lia).
  rewrite shr_1_spec by lia. cbn [shr_m shr_r shr_s].
  pose proof (Z.mod_pos_bound A B HB) as Hrho.
  rewrite Z.rem_mul_r by lia.
  rewrite (Zmod_odd (A / B)).
  subst m r s. rewrite Z.div_div by lia.
  split; [reflexivity |].
  destruct (Z.odd (A / B)).
  - split.
    + symmetry. apply Z.leb_le. lia.
    + destruct (Z.leb_spec B (2 * (A mod B)));
        destruct (Z.eqb_spec (A mod B) 0);
        destruct (Z.eqb_spec (2 * (A mod B)) B);
        destruct (Z.eqb_spec (A mod B + B * 1) 0);
        destruct (Z.eqb_spec (2 * (A mod B + B * 1)) (B * 2));
        cbn; try reflexivity; lia.
  - split.
    + symmetry. apply Z.leb_gt. lia.
    + destruct (Z.leb_spec B (2 * (A mod B)));
        destruct (Z.eqb_spec (A mod B) 0);
        destruct (Z.eqb_spec (2 * (A mod B)) B);
        destruct (Z.eqb_spec (A mod B + B * 0) 0);
        destruct (Z.eqb_spec (2 * (A mod B + B * 0)) (B * 2));
        cbn; try reflexivity; lia.
Qed.

Lemma iter_shr_1_Rec A n : forall B mrs,
  0 <= A -> 0 < B -> Rec A B mrs ->
  Rec A (B * 2 ^ Zpos n) (iter_pos shr_1 n mrs).
Proof.
  induction n as [n IH | n IH |]; intros B mrs HA HB H; cbn [iter_pos].
  - assert (P : 0 < 2 ^ Zpos n) by (apply Z.pow_pos_nonneg; lia).
    replace (B * 2 ^ Zpos n~1) with (B * 2 * 2 ^ Zpos n * 2 ^ Zpos n).
    + apply IH; [lia | nia |]. apply IH; [lia | lia |].
      apply shr_1_Rec; assumption.
    + assert (E : Zpos n~1 = Zpos n + Zpos n + 1) by lia. rewrite E.
      rewrite !Z.pow_add_r by lia. change (2 ^ 1) with 2. ring.
  - assert (P : 0 < 2 ^ Zpos n) by (apply Z.pow_pos_nonneg; lia).
    replace (B * 2 ^ Zpos n~0) with (B * 2 ^ Zpos n * 2 ^ Zpos n).
    + apply IH; [lia | nia |]. apply IH; assumption.
    + assert (E : Zpos n~0 = Zpos n + Zpos n) by lia. rewrite E.
      rewrite Z.pow_add_r by lia. ring.
  - change (2 ^ 1) with 2. apply shr_1_Rec; assumption.
Qed.

Lemma new_location_Rec A B :
  0 <= A -> 0 < B ->
  Rec A B (shr_record_of_loc (A / B) (new_location B (A mod B))).
Proof.
  intros HA HB. pose proof (Z.mod_pos_bound A B HB) as Hrho.
  unfold Rec. rewrite shr_record_of_loc_m. split; [reflexivity |].
  unfold new_location, new_location_even, new_location_odd.
  pose proof (Zmod_even B) as Hev. pose proof (Z.div_mod B 2 ltac:(lia)) as HB2.
  destruct (Z.even B);
    destruct (Z.eqb_spec (A mod B) 0) as [E0 | E0];
    try (rewrite E0; cbn [shr_record_of_loc shr_r shr_s];
         destruct (Z.leb_spec B (2 * 0)); [lia | split; reflexivity]).
  - destruct (Z.compare_spec (2 * (A mod B)) B);
      cbn [shr_record_of_loc shr_r shr_s];
      destruct (Z.leb_spec B (2 * (A mod B)));
      destruct (Z.eqb_spec (2 * (A mod B)) B);
      try lia; split; reflexivity.
  - destruct (Z.compare_spec (2 * (A mod B) + 1) B);
      cbn [shr_record_of_loc shr_r shr_s];
      destruct (Z.leb_spec B (2 * (A mod B)));
      destruct (Z.eqb_spec (2 * (A mod B)) B);
      try lia; split; reflexivity.
Qed.

Lemma exact_Rec A : Rec A 1 (shr_record_of_loc A loc_Exact).
Proof.
  unfold Rec. cbn [shr_record_of_loc shr_m shr_r shr_s].
  rewrite Z.div_1_r, Z.mod_1_r. repeat split.
Qed.

(** The first shift of a rounding: by some [n >= 0] places. *)
Lemma shr_fexp_Rec A B m e l :
  0 <= A -> 0 < B -> Rec A B (shr_record_of_loc m l) ->
  let '(mrs, e1) := shr_fexp prec emax m e l in
  exists n, 0 <= n /\ e1 = e + n /\ Rec A (B * 2 ^ n) mrs.
Proof.
  intros HA HB H. unfold shr_fexp, shr.
  destruct (fexp prec emax (Zdigits2 m + e) - e) as [| n | n].
  - exists 0. rewrite Z.mul_1_r. repeat split; [lia | lia | apply H ..].
  - exists (Zpos n). split; [lia |]. split; [reflexivity |].
    apply iter_shr_1_Rec; assumption.
  - exists 0. rewrite Z.mul_1_r. repeat split; [lia | lia | apply H ..].
Qed.

(** Rounding to nearest moves the fraction by at most a half. *)
Lemma round_nearest_even_Rec A B mrs :
  0 <= A -> 0 < B -> Rec A B mrs ->
  let m := round_nearest_even (shr_m mrs) (loc_of_shr_record mrs) in
  shr_m mrs <= m <= shr_m mrs + 1 /\
  2 * A - B <= 2 * (m * B) <= 2 * A + B.
Proof.
  intros HA HB. destruct mrs as [q r s]. unfold Rec.
  cbn [shr_m shr_r shr_s]. intros (Hq & Hr & Hs).
  pose proof (Z.mod_pos_bound A B HB) as Hrho.
  pose proof (Z.div_mod A B ltac:(lia)) as HAB.
  rewrite <- Hq in HAB.
  destruct (Z.leb_spec B (2 * (A mod B)));
    destruct (Z.eqb_spec (A mod B) 0);
    destruct (Z.eqb_spec (2 * (A mod B)) B);
    cbn in Hr, Hs; subst r s;
    cbn [loc_of_shr_record round_nearest_even]; try lia;
    try (destruct (Z.even q)); nia.
Qed.

(** The second shift of a rounding only makes room for a carry: it
    loses nothing. *)
Lemma shr_fexp_carry m m2 e1 :
  0 <= m -> m <= m2 <= m + 1 ->
  fexp prec emax (Zdigits2 m + e1) <= e1 -> -1074 <= e1 ->
  let '(mrs, e2) := shr_fexp prec emax m2 e1 loc_Exact in
  e1 <= e2 /\ shr_m mrs * 2 ^ (e2 - e1) = m2.
Proof.
  intros Hm H2 Hf He. unfold shr_fexp, shr.
  destruct (fexp prec emax (Zdigits2 m2 + e1) - e1) as [| p | p] eqn:Hk;
    cbn [shr_record_of_loc shr_m];
    try (split; [lia | rewrite Z.sub_diag; lia]).
  pose proof (Zdigits2_gt m Hm) as Hgt.
  pose proof (Zdigits2_nonneg m) as Hd.
  pose proof (Zdigits2_succ m Hm) as Hs.
  assert (E2 : m2 = m + 1).
  { destruct (Z.eq_dec m2 m) as [E | E]; [| lia].
    rewrite E in Hk. lia. }
  subst m2.
  assert (Hpow : m + 1 = 2 ^ Zdigits2 m).
  { destruct (Z.eq_dec (m + 1) (2 ^ Zdigits2 m)) as [E | E]; [exact E |].
    pose proof (Zdigits2_upper (m + 1) (Zdigits2 m) ltac:(lia) Hd) as Hu.
    unfold fexp, SpecFloat.emin, prec, emax in *. lia. }
  assert (Hp : p = 1%positive).
  { unfold fexp, SpecFloat.emin, prec, emax in *. lia. }
  subst p. cbn [iter_pos]. rewrite shr_1_spec by lia. cbn [shr_m].
  split; [lia |].
  replace (e1 + 1 - e1) with 1 by lia. change (2 ^ 1) with 2.
  assert (Hd1 : 1 <= Zdigits2 m).
  { destruct (Z.eq_dec (Zdigits2 m) 0) as [E | E]; [| lia].
    rewrite E in Hpow. change (2 ^ 0) with 1 in Hpow.
    assert (m = 0) by lia. subst m.
    change (fexp prec emax (1 + e1) - e1 = 1) in Hk.
    unfold fexp, SpecFloat.emin, prec, emax in *. lia. }
  rewrite Hpow.
  replace (Zdigits2 m) with (Z.succ (Zdigits2 m - 1)) by lia.
  rewrite Z.pow_succ_r by lia.
  rewrite (Z.mul_comm 2), Z.div_mul by lia. reflexivity.
Qed.

(** What rounding does to the fraction [A / B] at exponent [e]: the
    result keeps the sign, sits at an exponent [e + k], and is within
    half a unit of that exponent of the fraction. *)
Lemma binary_round_aux_error sx q e l A B s mf ef :
  0 <= A -> 0 < B -> Rec A B (shr_record_of_loc q l) ->
  binary_round_aux prec emax sx q e l = S754_finite s mf ef ->
  s = sx /\
  exists k, 0 <= k /\ ef = e + k /\
    2 * A - B * 2 ^ k <= 2 * (Zpos mf * (B * 2 ^ k)) <= 2 * A + B * 2 ^ k.
Proof.
  intros HA HB HR. unfold binary_round_aux.
  assert (Hq : 0 <= q).
  { destruct HR as [Hq _]. rewrite shr_record_of_loc_m in Hq.
    rewrite Hq. apply Z.div_pos; lia. }
  pose proof (shr_fexp_Rec A B q e l HA HB HR) as H1.
  pose proof (shr_fexp_magnitude prec emax q e l Hq) as M1.
  destruct (shr_fexp prec emax q e l) as [mrs1 e1].
  destruct H1 as (n & Hn & He1 & R1). destruct M1 as (N1 & E1 & D1).
  assert (HBn : 0 < B * 2 ^ n).
  { apply Z.mul_pos_pos; [lia | apply Z.pow_pos_nonneg; lia]. }
  pose proof (round_nearest_even_Rec A (B * 2 ^ n) mrs1 HA HBn R1) as H2.
  cbv zeta in H2. destruct H2 as [Hm2 Herr].
  set (m2 := round_nearest_even (shr_m mrs1) (loc_of_shr_record mrs1)) in *.
  pose proof (Zdigits2_nonneg q) as Hdq.
  pose proof (shr_fexp_carry (shr_m mrs1) m2 e1 N1 Hm2) as H3.
  destruct (shr_fexp prec emax m2 e1 loc_Exact) as [mrs2 e2].
  destruct H3 as [He2 Hexact].
  { unfold fexp, SpecFloat.emin, prec, emax in *. lia. }
  { unfold fexp, SpecFloat.emin, prec, emax in *. lia. }
  destruct (shr_m mrs2) as [| m | m]; try discriminate.
  destruct (e2 <=? emax - prec); try discriminate.
  intros E. inversion E; subst s mf ef. clear E.
  split; [reflexivity |].
  exists (n + (e2 - e1)). split; [lia |]. split; [lia |].
  rewrite Z.pow_add_r by lia.
  assert (P1 : 0 < 2 ^ (e2 - e1)) by (apply Z.pow_pos_nonneg; lia).
  set (j := 2 ^ (e2 - e1)) in *. set (B' := B * 2 ^ n) in *.
  replace (Zpos m * (B * (2 ^ n * j))) with (m2 * B')
    by (rewrite <- Hexact; unfold B'; ring).
  replace (B * (2 ^ n * j)) with (B' * j) by (unfold B'; ring).
  nia.
Qed.

Lemma Zdigits2_le a b : 0 <= a <= b -> Zdigits2 a <= Zdigits2 b.
Proof.
  intros [Ha Hab]. pose proof (Zdigits2_gt b ltac:(lia)).
  apply Zdigits2_upper; [lia | apply Zdigits2_nonneg].
Qed.

Lemma round_nearest_even_ge m l : m <= round_nearest_even m l.
Proof.
  destruct l as [| []]; cbn [round_nearest_even]; try lia.
  destruct (Z.even m); lia.
Qed.

(** A rounded value never sits below the smallest exponent. *)
Lemma binary_round_aux_exponent sx q e l s mf ef :
  0 <= q ->
  binary_round_aux prec emax sx q e l = S754_finite s mf ef -> -1074 <= ef.
Proof.
  intros Hq. unfold binary_round_aux.
  pose proof (shr_fexp_magnitude prec emax q e l Hq) as M1.
  destruct (shr_fexp prec emax q e l) as [mrs1 e1].
  destruct M1 as (N1 & E1 & D1).
  pose proof (round_nearest_even_nonneg _ (loc_of_shr_record mrs1) N1) as N2.
  set (m2 := round_nearest_even (shr_m mrs1) (loc_of_shr_record mrs1)) in *.
  pose proof (shr_fexp_magnitude prec emax m2 e1 loc_Exact N2) as M3.
  destruct (shr_fexp prec emax m2 e1 loc_Exact) as [mrs2 e2].
  destruct M3 as (N3 & E3 & D3).
  destruct (shr_m mrs2) as [| m | m]; try discriminate.
  destruct (e2 <=? emax - prec); try discriminate.
  intros E. inversion E; subst s mf ef. clear E.
  unfold fexp, SpecFloat.emin, prec, emax in *. lia.
Qed.

(** A mantissa of at least 53 bits whose magnitude reaches the normal
    range is rounded to exactly 53 bits, unless it overflows. *)
Lemma binary_round_aux_normal sx q e l :
  0 <= q -> 53 <= Zdigits2 q -> -1021 <= Zdigits2 q + e ->
  isFinite (binary_round_aux prec emax sx q e l) = true ->
  isNormal (binary_round_aux prec emax sx q e l) = true.
Proof.
  intros Hq H53 Hmag. unfold binary_round_aux.
  pose proof (shr_fexp_magnitude prec emax q e l Hq) as M1.
  destruct (shr_fexp prec emax q e l) as [mrs1 e1].
  destruct M1 as (N1 & E1 & D1).
  pose proof (round_nearest_even_nonneg _ (loc_of_shr_record mrs1) N1) as N2.
  pose proof (round_nearest_even_le _ (loc_of_shr_record mrs1) N1) as D2.
  pose proof (round_nearest_even_ge (shr_m mrs1) (loc_of_shr_record mrs1)) as G2.
  pose proof (Zdigits2_le _ _ (conj N1 G2)) as L2.
  set (m2 := round_nearest_even (shr_m mrs1) (loc_of_shr_record mrs1)) in *.
  pose proof (shr_fexp_magnitude prec emax m2 e1 loc_Exact N2) as M3.
  destruct (shr_fexp prec emax m2 e1 loc_Exact) as [mrs2 e2].
  destruct M3 as (N3 & E3 & D3).
  unfold fexp, SpecFloat.emin in *.
  destruct (shr_m mrs2) as [| m | m]; cbn [Zdigits2] in D3.
  - unfold prec, emax in *. lia.
  - destruct (e2 <=? emax - prec); [| discriminate]. intros _.
    cbn [isNormal]. apply Z.eqb_eq. unfold prec, emax in *. lia.
  - discriminate.
Qed.

Lemma SFdiv_exponent x y s m e :
  SFdiv prec emax x y = S754_finite s m e -> -1074 <= e.
Proof.
  destruct x as [sx | sx | | sx mx ex], y as [sy | sy | | sy my ey];
    try discriminate.
  cbn [SFdiv]. unfold SFdiv_core_binary.
  set (m' := match _ with Z0 => Zpos mx | Zpos _ => _ | Zneg _ => 0 end).
  assert (Hm : 0 <= m').
  { subst m'. destruct (_ - _ - _); try lia. apply Z.shiftl_nonneg. lia. }
  pose proof (Z.div_pos m' (Zpos my) Hm eq_refl) as Hq.
  unfold Z.div in Hq. destruct (Z.div_eucl m' (Zpos my)) as [q r].
  intros H. apply (binary_round_aux_exponent _ _ _ _ _ _ _ Hq H).
Qed.

(** A well-formed Number that is [>= 1]: positive, and with a full
    mantissa at an exponent of at least -52 when finite. *)
Lemma at_least_one (N : number) :
  wellFormed N = true -> geb N (lit 1) = true ->
  match N with
  | S754_infinity false => True
  | S754_finite false m e => 2 ^ 52 <= Zpos m /\ -52 <= e
  | _ => False
  end.
Proof.
  change (lit 1) with (S754_finite false 4503599627370496 (-52)).
  unfold wellFormed, geb, SFleb.
  destruct N as [s | [] | | [] m e]; cbn [SFcompare valid_binary];
    try discriminate; try (intros; exact I).
  unfold bounded, canonical_mantissa. intros Hv Hle.
  apply andb_true_iff in Hv. destruct Hv as [Hc _]. apply Z.eqb_eq in Hc.
  pose proof (Zdigits2_le_pos m) as Hm.
  unfold fexp, SpecFloat.emin, prec, emax in Hc.
  destruct (Z.compare_spec (-52) e) as [E | E | E]; try discriminate.
  - subst e. split; [| lia].
    change (Pos.compare_cont Eq 4503599627370496 m)
      with (Pos.compare 4503599627370496 m) in Hle.
    destruct (Pos.compare_spec 4503599627370496 m) as [E | E | E];
      try discriminate; change (2 ^ 52) with 4503599627370496; lia.
  - split; [| lia].
    assert (Hd : Zpos (digits2_pos m) = 53) by lia.
    rewrite Hd in Hm. exact Hm.
Qed.

End RoundingError.

Module ToleranceFacts.
Import Binary64 Binary64Facts Bracket RoundingError.
Local Open Scope Q_scope.

Lemma two_nonzero : ~ 2 == 0.
Proof. discriminate. Qed.

Lemma pow2_pos (e : Z) : 0 < 2 ^ e.
Proof. apply Qpower_0_lt. reflexivity. Qed.

Lemma scaled_shift (m e k : Z) :
  (0 <= k)%Z -> scaled (m * 2 ^ k) e == scaled m (e + k).
Proof.
  intros Hk. unfold scaled.
  rewrite inject_Z_mult, Zpower_Qpower by exact Hk.
  rewrite Qpower_plus by exact two_nonzero.
  change (inject_Z 2) with 2. ring.
Qed.

Lemma scaled_mul (a b e1 e2 : Z) :
  scaled a e1 * scaled b e2 == scaled (a * b) (e1 + e2).
Proof.
  unfold scaled. rewrite inject_Z_mult, Qpower_plus by exact two_nonzero. ring.
Qed.

(** An integer bound of 2^-53, relative to the first number, read on
    the numbers scaled by a common power of two. *)
Lemma scaled_bound (Y M c : Z) :
  (- Y <= 2 ^ 53 * (Y - M) <= Y)%Z ->
  Qabs (scaled Y c - scaled M c) <= scaled Y c * (1 # 2 ^ 53).
Proof.
  intros [H1 H2]. unfold scaled.
  pose proof (pow2_pos c) as Hp. set (p := 2 ^ c) in *.
  rewrite Zle_Qle in H1, H2.
  unfold Z.sub in H1, H2.
  rewrite inject_Z_mult, inject_Z_plus, !inject_Z_opp in H1.
  rewrite inject_Z_mult, inject_Z_plus, inject_Z_opp in H2.
  change (inject_Z (2 ^ 53)) with (9007199254740992 # 1) in H1, H2.
  set (y := inject_Z Y) in *. set (m := inject_Z M) in *.
  apply Qabs_Qle_condition.
  change (1 # 2 ^ 53) with (1 # 9007199254740992).
  assert (G1 : (- y) * p <= ((9007199254740992 # 1) * (y + - m)) * p)
    by (apply Qmult_le_compat_r; [exact H1 | apply Qlt_le_weak; exact Hp]).
  assert (G2 : ((9007199254740992 # 1) * (y + - m)) * p <= y * p)
    by (apply Qmult_le_compat_r; [exact H2 | apply Qlt_le_weak; exact Hp]).
  split; lra.
Qed.

Lemma normal_mantissa s m e :
  isNormal (S754_finite s m e) = true -> (2 ^ 52 <= Zpos m)%Z.
Proof.
  cbn [isNormal]. intros H. apply Z.eqb_eq in H.
  pose proof (Zdigits2_le_pos m) as Hm. rewrite H in Hm. exact Hm.
Qed.

(** A quotient in the normal range is within 2^-53 of the fraction,
    relative to itself; here multiplied out by the divisor. *)
Lemma SFdiv_error sT mT eT sN mN eN s mV eV :
  SFdiv prec emax (S754_finite sT mT eT) (S754_finite sN mN eN)
    = S754_finite s mV eV ->
  (2 ^ 52 <= Zpos mV)%Z ->
  s = xorb sT sN /\
  Qabs (scaled (Zpos mV) eV * scaled (Zpos mN) eN - scaled (Zpos mT) eT)
    <= scaled (Zpos mV) eV * scaled (Zpos mN) eN * (1 # 2 ^ 53).
Proof.
  cbn [SFdiv]. unfold SFdiv_core_binary. cbn [Zdigits2].
  set (e' := Z.min (fexp prec emax (Zpos (digits2_pos mT) + eT
                                     - (Zpos (digits2_pos mN) + eN)))
                   (eT - eN)).
  set (sh := (eT - eN - e')%Z).
  assert (Hs : (0 <= sh)%Z) by (unfold sh, e'; lia).
  set (m' := match sh with
             | Z0 => Zpos mT
             | Zpos _ => Z.shiftl (Zpos mT) sh
             | Zneg _ => 0%Z
             end).
  assert (Hm : m' = (Zpos mT * 2 ^ sh)%Z).
  { unfold m'. destruct sh as [| p | p] eqn:E; try lia.
    rewrite Z.shiftl_mul_pow2 by lia. reflexivity. }
  assert (Hm0 : (0 <= m')%Z).
  { rewrite Hm. apply Z.mul_nonneg_nonneg; [lia | apply Z.pow_nonneg; lia]. }
  pose proof (new_location_Rec m' (Zpos mN) Hm0 eq_refl) as HR.
  unfold Z.div, Z.modulo in HR.
  destruct (Z.div_eucl m' (Zpos mN)) as [q r].
  intros Hround Hnormal.
  destruct (binary_round_aux_error _ _ _ _ m' (Zpos mN) _ _ _
              Hm0 eq_refl HR Hround)
    as [Hsign (k & Hk & HeV & Herr)].
  split; [exact Hsign |].
  assert (Pk : (0 < 2 ^ k)%Z) by (apply Z.pow_pos_nonneg; lia).
  rewrite scaled_mul.
  assert (E1 : scaled (Zpos mV * Zpos mN) (eV + eN)
               == scaled (Zpos mV * Zpos mN * 2 ^ k) (e' + eN)).
  { rewrite scaled_shift by exact Hk.
    replace (e' + eN + k)%Z with (eV + eN)%Z by lia. reflexivity. }
  assert (E2 : scaled (Zpos mT) eT == scaled m' (e' + eN)).
  { rewrite Hm, scaled_shift by exact Hs.
    replace (e' + eN + sh)%Z with eT by (unfold sh; lia). reflexivity. }
  rewrite E1, E2. apply scaled_bound.
  set (X := (Zpos mN * 2 ^ k)%Z) in *.
  assert (HX : (0 < X)%Z) by (unfold X; lia).
  replace (Zpos mV * Zpos mN * 2 ^ k)%Z with (Zpos mV * X)%Z
    by (unfold X; ring).
  assert (HY : (2 ^ 52 * X <= Zpos mV * X)%Z) by nia.
  change (2 ^ 53)%Z with 9007199254740992%Z.
  change (2 ^ 52)%Z with 4503599627370496%Z in HY. lia.
Qed.

(** A product in the normal range is within 2^-53 of the exact
    product, relative to itself. *)
Lemma SFmul_error sV mV eV sN mN eN s mW eW :
  SFmul prec emax (S754_finite sV mV eV) (S754_finite sN mN eN)
    = S754_finite s mW eW ->
  (2 ^ 52 <= Zpos mW)%Z ->
  s = xorb sV sN /\
  Qabs (scaled (Zpos mW) eW - scaled (Zpos mV) eV * scaled (Zpos mN) eN)
    <= scaled (Zpos mW) eW * (1 # 2 ^ 53).
Proof.
  cbn [SFmul]. intros Hround Hnormal.
  destruct (binary_round_aux_error _ _ _ _ (Zpos (mV * mN)) 1 _ _ _
              ltac:(lia) eq_refl (exact_Rec _) Hround)
    as [Hsign (k & Hk & HeW & Herr)].
  split; [exact Hsign |].
  assert (Pk : (0 < 2 ^ k)%Z) by (apply Z.pow_pos_nonneg; lia).
  rewrite scaled_mul.
  assert (E1 : scaled (Zpos mW) eW == scaled (Zpos mW * 2 ^ k) (eV + eN)).
  { rewrite scaled_shift by exact Hk. rewrite HeW. reflexivity. }
  rewrite E1. apply scaled_bound.
  rewrite Pos2Z.inj_mul in Herr.
  set (X := (2 ^ k)%Z) in *.
  assert (HY : (2 ^ 52 * X <= Zpos mW * X)%Z) by nia.
  change (2 ^ 53)%Z with 9007199254740992%Z.
  change (2 ^ 52)%Z with 4503599627370496%Z in HY. lia.
Qed.

Lemma value_scaled s m e :
  value (S754_finite s m e)
  = if s then - scaled (Zpos m) e else scaled (Zpos m) e.
Proof. reflexivity. Qed.

Lemma scaled_pos m e : 0 < scaled (Zpos m) e.
Proof.
  unfold scaled. apply Qmult_lt_0_compat; [reflexivity | apply pow2_pos].
Qed.

(** Dividing and multiplying back by the same Number, when neither
    result leaves the normal range, gives the Number back within
    2^-51 of it. *)
Lemma round_trip_tolerance (T N : number) :
  isNormal (SFdiv prec emax T N) = true ->
  isNormal (SFmul prec emax (SFdiv prec emax T N) N) = true ->
  Qabs (value (SFmul prec emax (SFdiv prec emax T N) N) - value T)
    <= Qabs (value T) * (1 # 2 ^ 51).
Proof.
  destruct T as [sT | sT | | sT mT eT], N as [sN | sN | | sN mN eN];
    try (cbn; discriminate).
  destruct (SFdiv prec emax (S754_finite sT mT eT) (S754_finite sN mN eN))
    as [sV | sV | | sV mV eV] eqn:EV; try (cbn; discriminate).
  intros NV.
  destruct (SFmul prec emax (S754_finite sV mV eV) (S754_finite sN mN eN))
    as [sW | sW | | sW mW eW] eqn:EW; try (cbn; discriminate).
  intros NW.
  apply normal_mantissa in NV, NW.
  destruct (SFdiv_error _ _ _ _ _ _ _ _ _ EV NV) as [SV HV].
  destruct (SFmul_error _ _ _ _ _ _ _ _ _ EW NW) as [SW HW].
  assert (Hsign : sW = sT) by (subst sW sV; destruct sT, sN; reflexivity).
  rewrite !value_scaled, Hsign.
  pose proof (scaled_pos mT eT) as Pt. pose proof (scaled_pos mW eW) as Pw.
  set (t := scaled (Zpos mT) eT) in *. set (w := scaled (Zpos mW) eW) in *.
  set (vn := scaled (Zpos mV) eV * scaled (Zpos mN) eN) in *.
  apply Qabs_Qle_condition in HV, HW.
  change (1 # 2 ^ 53) with (1 # 9007199254740992) in HV, HW.
  change (1 # 2 ^ 51) with (1 # 2251799813685248).
  destruct sT.
  - rewrite Qabs_opp, (Qabs_pos t) by lra. apply Qabs_Qle_condition.
    split; lra.
  - rewrite (Qabs_pos t) by lra. apply Qabs_Qle_condition. split; lra.
Qed.

Local Open Scope Z_scope.

(** The product of a normal quotient and a Number that is [>= 1] is
    normal unless it overflows. *)
Lemma product_normal T N :
  wellFormed N = true -> geb N (lit 1) = true ->
  isNormal (SFdiv prec emax T N) = true ->
  isFinite (SFmul prec emax (SFdiv prec emax T N) N) = true ->
  isNormal (SFmul prec emax (SFdiv prec emax T N) N) = true.
Proof.
  intros Hv H1 HV HW. pose proof (at_least_one N Hv H1) as HN.
  destruct (SFdiv prec emax T N) as [sV | sV | | sV mV eV] eqn:EV;
    try discriminate.
  apply SFdiv_exponent in EV.
  destruct N as [sN | [] | | [] mN eN]; try contradiction;
    try (cbn in HW; discriminate).
  destruct HN as [HmN HeN].
  pose proof (normal_mantissa _ _ _ HV) as HmV.
  revert HW. cbn [SFmul]. apply binary_round_aux_normal; [lia | |];
    pose proof (Zdigits2_gt (Zpos (mV * mN)) ltac:(lia)) as Hgt;
    assert (H104 : 2 ^ 104 <= Zpos (mV * mN))
      by (rewrite Pos2Z.inj_mul; change (2 ^ 104) with (2 ^ 52 * 2 ^ 52); nia);
    assert (Hd : 104 < Zdigits2 (Zpos (mV * mN)))
      by (apply (Z.pow_lt_mono_r_iff 2); [lia | apply Zdigits2_nonneg | lia]);
    lia.
Qed.

End ToleranceFacts.

(* ================================================================= *)
(** * The installments against the total, on Binary64 *)

Module RoundTripFacts.
Import Binary64 Binary64Facts LoansFacts ToleranceFacts.
Local Open Scope Q_scope.

Lemma zero_round_trip (T N : number) :
  is_zero T = true -> isFinite N = true -> truthy N = true ->
  is_zero (SFmul prec emax (SFdiv prec emax T N) N) = true.
Proof.
  destruct T as [sT | sT | | sT mT eT], N as [sN | sN | | sN mN eN];
    try discriminate; reflexivity.
Qed.

Lemma at_least_one_truthy (N : number) :
  geb N (lit 1) = true -> truthy N = true.
Proof.
  change (lit 1) with (S754_finite false 4503599627370496 (-52)).
  destruct N as [s | s | | s m e]; try reflexivity; discriminate.
Qed.

(** C6: on Binary64, for every parsed principal and rate and a parsed
    count N that is at least 1, in the preview, in the amounts
    [handleCreateLoan] computes and in the specification's formula:
    when the installment value is a normal
    Number (it did not underflow) and the installment value times N is
    finite (it did not overflow), that product is within 2^-51 of the
    total amount, relative to the total amount, as rationals; and a
    total of zero gives a product of zero for a finite N.  Nothing is
    claimed outside that range, where the product can be Infinity or
    zero for a finite total that is not zero. *)
Theorem installments_within_tolerance :
  forall (G : Globals number) (newLoan : NewLoan),
    let N := parseInt newLoan.(installments_count) in
    geb N (lit 1) = true -> wellFormed N = true ->
    forall amounts : Amortization number,
      amounts = preview newLoan \/
      amounts = createLoanAmounts newLoan \/
      amounts = compute (parseFloat newLoan.(capital))
                        (parseFloat newLoan.(interest_rate)) N ->
      let T := totalAmount amounts in
      let V := installmentValue amounts in
      (isNormal V = true -> isFinite (mul V N) = true ->
       Qabs (value (mul V N) - value T) <= Qabs (value T) * (1 # 2 ^ 51)) /\
      (is_zero T = true -> isFinite N = true -> is_zero (mul V N) = true).
Proof.
  intros G newLoan N H1 Hv amounts Hamounts T V.
  pose proof (at_least_one_truthy N H1) as Ht.
  assert (EV : V = SFdiv prec emax T N).
  { subst V T. destruct Hamounts as [-> | [-> | ->]]; try reflexivity.
    unfold preview. cbn [installmentValue totalAmount].
    unfold previewCount. fold N. rewrite (or_else_truthy N _ Ht).
    reflexivity. }
  cbn [mul binary64]. rewrite EV. split.
  - intros HV HW. apply round_trip_tolerance; [exact HV |].
    apply product_normal; assumption.
  - intros HT HN. apply zero_round_trip; assumption.
Qed.

Lemma installments_within_tolerance_witness :
  let shown := preview (G := Parse.globals) Samples.loan24 in
  geb (parseInt (Globals := Parse.globals) "24") (lit 1) = true /\
  isNormal (installmentValue shown) = true /\
  Qabs (value (mul (installmentValue shown)
                   (parseInt (Globals := Parse.globals) "24"))
        - value (totalAmount shown))
    <= Qabs (value (totalAmount shown)) * (1 # 2 ^ 51).
Proof.
  split; [vm_compute; reflexivity |]. split; [vm_compute; reflexivity |].
  apply (proj1 (installments_within_tolerance Parse.globals Samples.loan24
                  eq_refl eq_refl _ (or_introl eq_refl)));
    vm_compute; reflexivity.
Defined.

(** C6, as the claim states it, fails at both ends of the range:
    although the parsed principal and rate are at least 0 and the count
    at least 1, the largest Number in 3 installments has a finite total
    and gives back Infinity; the smallest Number in 2 installments gives
    back zero, which is off by the whole total. *)
Lemma installments_lost_at_the_edges :
  let largest := preview (G := Parse.globals) MoreSamples.loanLargest in
  let smallest := preview (G := Parse.globals) MoreSamples.loanSmallest in
  let three := parseInt (Globals := Parse.globals) "3" in
  let two := parseInt (Globals := Parse.globals) "2" in
  (geb (parseFloat (Globals := Parse.globals) "1.7976931348623157e308")
       (lit 0) = true /\
   geb (parseFloat (Globals := Parse.globals) "5e-324") (lit 0) = true /\
   geb (parseFloat (Globals := Parse.globals) "0") (lit 0) = true /\
   geb three (lit 1) = true /\ geb two (lit 1) = true) /\
  (totalAmount largest = SFmax_float prec emax /\
   isFinite (totalAmount largest) = true /\
   mul (installmentValue largest) three = Infinity) /\
  (totalAmount smallest = S754_finite false 1 (-1074) /\
   mul (installmentValue smallest) two = S754_zero false /\
   ~ Qabs (value (mul (installmentValue smallest) two)
           - value (totalAmount smallest))
       <= Qabs (value (totalAmount smallest)) * (1 # 2 ^ 51)).
Proof.
  cbv zeta. split; [vm_compute; repeat split |].
  split; [vm_compute; repeat split |].
  split; [vm_compute; reflexivity |]. split; [vm_compute; reflexivity |].
  intros H. vm_compute in H. apply H. reflexivity.
Qed.

End RoundTripFacts.

(* ================================================================= *)
(** * Properties of the sign-up role *)

Module LoginFacts.
Import LoginPage.

(** C9: the role of the account created on sign-up is ADMIN exactly when
    the administrator checkbox is checked and the code typed equals
    admin123, and COLLECTOR in every other case; that role is the one
    sent with the sign-up and the one written to the profile. *)
Theorem signUpRole_admin_code :
  forall f : Form,
    (signUpRole f = ADMIN <->
     f.(showAdminCode) = true /\ f.(adminCode) = "admin123"%string) /\
    (signUpRole f = COLLECTOR <->
     ~ (f.(showAdminCode) = true /\ f.(adminCode) = "admin123"%string)) /\
    data_role (signUp f) = signUpRole f /\
    (forall userId : string, profile_role (profile f userId) = signUpRole f).
Proof.
  intros f. unfold signUp, profile, signUpRole.
  cbn [data_role profile_role].
  destruct (showAdminCode f);
    destruct (String.eqb_spec (adminCode f) "admin123") as [E | E];
    cbn [andb]; repeat split; intros;
    try reflexivity; try discriminate; try assumption;
    intuition congruence.
Qed.

Example signUpRole_samples :
  signUpRole (sampleForm true "admin123") = ADMIN /\
  signUpRole (sampleForm false "admin123") = COLLECTOR /\
  signUpRole (sampleForm true "Admin123") = COLLECTOR /\
  signUpRole (sampleForm true "") = COLLECTOR.
Proof. repeat split. Qed.

End LoginFacts.

(* ================================================================= *)
(** * What the calculations depend on *)

Module Determinism.
Import LatePayments.

(** C7, as the claim states it, fails: two calls of [getDaysLate] with
    the same due date, a day apart on the clock, give 0 and then 1. *)
Lemma getDaysLate_reads_the_clock :
  let date := Some 1700000000000%Z in
  let twice :=
    bind (getDaysLate date) (fun first =>
    bind (getDaysLate date) (fun second => ret (first, second))) in
  fst (twice (Samples.dailyClock 1700000000000)) = (Some 0%Z, Some 1%Z).
Proof. reflexivity. Qed.

(** C7, amended: the amounts of the loan form are a function of the three
    numeric fields alone, so equal fields give equal amounts; the days
    late are a function of the due date and of the clock reading the call
    makes, so two calls with the same date agree when the clock reads the
    same, and only then need they agree. *)
Theorem calculations_depend_on :
  (forall (num : Type) (N : Numeric num) (G : Globals num)
          (a b : NewLoan),
      a.(capital) = b.(capital) ->
      a.(interest_rate) = b.(interest_rate) ->
      a.(installments_count) = b.(installments_count) ->
      preview a = preview b /\
      createLoanAmounts a = createLoanAmounts b) /\
  (forall (date : integral) (c : Clock),
      fst (getDaysLate date c) = daysLate date (c O)) /\
  (forall (date : integral) (c1 c2 : Clock),
      c1 O = c2 O ->
      fst (getDaysLate date c1) = fst (getDaysLate date c2)).
Proof.
  split; [| split].
  - intros num N G a b Hc Hr Hn. split.
    + unfold preview, previewCapital, previewRate, previewCount.
      rewrite Hc, Hr, Hn. reflexivity.
    + unfold createLoanAmounts. rewrite Hc, Hr, Hn. reflexivity.
  - intros date c. reflexivity.
  - intros date c1 c2 H.
    unfold getDaysLate, bind, newDateGetTime, ret. cbn [fst].
    rewrite H. reflexivity.
Qed.

Lemma calculations_depend_on_witness :
  preview (N := Binary64.binary64) (G := Parse.globals) Samples.loan24 =
  preview (N := Binary64.binary64) (G := Parse.globals)
    {| client_id := "";
       capital := "1000";
       interest_rate := "10";
       payment_type := MONTHLY;
       installments_count := "24";
       start_date := "2025-01-01";
       late_fee_enabled := false |}.
Proof.
  apply (proj1 calculations_depend_on Binary64.number Binary64.binary64
           Parse.globals); reflexivity.
Defined.

End Determinism.


(* ================================================================= *)
(** * More of [LatePayments]: the cards, the link, [cn], renegotiation *)

Module CardsFacts.
Import LatePayments LateActions LatePaymentsFacts.
Local Open Scope Z_scope.

Lemma geq_daysLate_later (date : integral) (now later k : Z) :
  now <= later ->
  geq (daysLate date now) k = true -> geq (daysLate date later) k = true.
Proof.
  intros Hle. destruct date as [D |]; [| discriminate].
  rewrite !daysLate_Some, !geq_Some. intros H.
  assert (HD : (now - D) / msPerDay <= (later - D) / msPerDay)
    by (apply Z.div_le_mono; [reflexivity | lia]).
  lia.
Qed.

Lemma matchesFilter_later (date : integral) (now later filter : Z) :
  now <= later ->
  matchesFilter (daysLate date now) filter = true ->
  matchesFilter (daysLate date later) filter = true.
Proof.
  intros Hle. unfold matchesFilter.
  destruct (filter =? 3); [apply geq_daysLate_later; exact Hle |].
  destruct (filter =? 7); [apply geq_daysLate_later; exact Hle |].
  destruct (filter =? 30); [apply geq_daysLate_later; exact Hle |].
  reflexivity.
Qed.

(** [filteredLate] reads the clock once for each row, and a row it keeps
    passed the filter at one of those readings. *)
Lemma filteredLate_readings (filter : Z) (latePayments : list LatePayment) :
  forall c : Clock,
    (forall n, snd (filteredLate latePayments filter c) n
               = c (length latePayments + n)%nat) /\
    Forall (fun lp =>
              exists i, (i < length latePayments)%nat /\
                matchesFilter (daysLate lp.(oldestDueDate) (c i)) filter
                  = true)
           (fst (filteredLate latePayments filter c)).
Proof.
  unfold filteredLate.
  induction latePayments as [| lp rest IH]; intros c.
  - split; [reflexivity | constructor].
  - cbn [filterM].
    rewrite bind_run.
    change (bind (getDaysLate (oldestDueDate lp))
              (fun days => ret (matchesFilter days filter)) c)
      with (matchesFilter (daysLate (oldestDueDate lp) (c O)) filter,
            fun n => c (S n)).
    cbn [fst snd]. rewrite bind_run.
    destruct (IH (fun n => c (S n))) as [IH1 IH2].
    unfold ret at 1. cbn [fst snd length]. split.
    + intros n. rewrite IH1. reflexivity.
    + assert (Hrest : Forall (fun lp0 =>
          exists i, (i < S (length rest))%nat /\
            matchesFilter (daysLate (oldestDueDate lp0) (c i)) filter = true)
          (fst (filterM (fun lp0 =>
                  bind (getDaysLate (oldestDueDate lp0))
                    (fun days => ret (matchesFilter days filter)))
                rest (fun n => c (S n))))).
      { eapply Forall_impl; [| exact IH2].
        intros a [i [Hi Hm]]. exists (S i). split; [lia | exact Hm]. }
      destruct (matchesFilter (daysLate (oldestDueDate lp) (c O)) filter)
        eqn:E.
      * constructor; [| exact Hrest]. exists O. split; [lia | exact E].
      * exact Hrest.
Qed.

Lemma cards_of_kept
    (filter : Z) (c0 : Clock) (len : nat) (kept : list LatePayment) :
  monotone c0 ->
  Forall (fun lp =>
            exists i, (i < len)%nat /\
              matchesFilter (daysLate lp.(oldestDueDate) (c0 i)) filter
                = true)
         kept ->
  forall c : Clock,
    (forall n, exists m, (len <= m)%nat /\ c n = c0 m) ->
    Forall (fun card : LatePayment * integral * Tier =>
              let '(lp, days, tier) := card in
              matchesFilter days filter = true /\ tier = classify days)
           (fst (mapM (fun lp =>
                   bind (getDaysLate lp.(oldestDueDate)) (fun days =>
                   ret (lp, days, classify days))) kept c)).
Proof.
  intros Hmono. induction kept as [| lp rest IH]; intros Hkept c Hc.
  - constructor.
  - inversion Hkept as [| ? ? [i [Hi Hm]] Hrest]; subst.
    cbn [mapM]. rewrite bind_run.
    change (bind (getDaysLate (oldestDueDate lp))
              (fun days => ret (lp, days, classify days)) c)
      with ((lp, daysLate (oldestDueDate lp) (c O),
             classify (daysLate (oldestDueDate lp) (c O))),
            fun n => c (S n)).
    cbn [fst snd]. rewrite bind_run. unfold ret at 1. cbn [fst].
    constructor.
    + split; [| reflexivity].
      destruct (Hc O) as [m [Hlen Hm0]]. rewrite Hm0.
      apply (matchesFilter_later _ (c0 i)); [apply Hmono; lia | exact Hm].
    + apply IH; [exact Hrest |]. intros n. apply (Hc (S n)).
Qed.

(** X3: as long as the clock never runs backwards, every card shown
    passes the selected filter with the days it displays, and has the
    tier of those days, although the filter and the card each read the
    clock for themselves. *)
Theorem cards_pass_the_filter :
  forall (latePayments : list LatePayment) (filter : Z) (c : Clock),
    monotone c ->
    Forall (fun card : LatePayment * integral * Tier =>
              let '(lp, days, tier) := card in
              matchesFilter days filter = true /\ tier = classify days)
           (fst (cards latePayments filter c)).
Proof.
  intros lps filter c Hmono. unfold cards. rewrite bind_run.
  destruct (filteredLate_readings filter lps c) as [Hclock Hkept].
  apply (cards_of_kept filter c (length lps)); [exact Hmono | exact Hkept |].
  intros n. exists (length lps + n)%nat. split; [lia | apply Hclock].
Qed.

Lemma cards_pass_the_filter_witness :
  Forall (fun card : LatePayment * integral * Tier =>
            let '(lp, days, tier) := card in
            matchesFilter days 7 = true /\ tier = classify days)
         (fst (cards MoreSamples.rows 7 (Samples.dailyClock 1700000000000))).
Proof.
  apply (cards_pass_the_filter MoreSamples.rows 7
           (Samples.dailyClock 1700000000000)).
  intros n m H. unfold Samples.dailyClock, msPerDay. lia.
Defined.

(** With a clock that steps back a day between the filter and the card,
    a row kept by the 7-day filter is shown with 6 days. *)
Example card_behind_the_filter :
  fst (cards [Samples.late "Ana" 1699395200000] 7
         (fun n => match n with
                   | O => 1700000000000
                   | _ => 1699913600000
                   end))
  = [(Samples.late "Ana" 1699395200000, Some 6, CURRENT)].
Proof. reflexivity. Qed.

End CardsFacts.

Module TextFacts.
Import Text.
Local Open Scope string_scope.

Lemma all_app (p : ascii -> bool) (a b : string) :
  all p (a ++ b) = all p a && all p b.
Proof.
  induction a as [| c a IH]; [reflexivity |].
  cbn [append all]. rewrite IH, andb_assoc. reflexivity.
Qed.

Lemma all_impl (p q : ascii -> bool) (s : string) :
  (forall c, p c = true -> q c = true) -> all p s = true -> all q s = true.
Proof.
  intros H. induction s as [| c s IH]; [reflexivity |].
  cbn [all]. intros E. apply andb_true_iff in E. destruct E as [E1 E2].
  rewrite (H c E1), (IH E2). reflexivity.
Qed.

Lemma replaceNonDigits_digits (s : string) :
  all isDigit (replaceNonDigits s) = true.
Proof.
  induction s as [| c s IH]; [reflexivity |].
  cbn [replaceNonDigits]. destruct (isDigit c) eqn:E; [| exact IH].
  cbn [all]. rewrite E, IH. reflexivity.
Qed.

Lemma replaceNonDigits_fixed (s : string) :
  all isDigit s = true -> replaceNonDigits s = s.
Proof.
  induction s as [| c s IH]; [reflexivity |].
  cbn [all replaceNonDigits]. intros E. apply andb_true_iff in E.
  destruct E as [E1 E2]. rewrite E1, (IH E2). reflexivity.
Qed.

Lemma percentEncode_escaped (c : ascii) :
  all isEscaped (percentEncode c) = true.
Proof. destruct c as [[] [] [] [] [] [] [] []]; reflexivity. Qed.

Lemma encodeURIComponent_escaped (s : string) :
  all isEscaped (encodeURIComponent s) = true.
Proof.
  induction s as [| c s IH]; [reflexivity |].
  cbn [encodeURIComponent]. rewrite all_app, IH, andb_true_r.
  destruct (isUnreserved c) eqn:E; [| apply percentEncode_escaped].
  cbn [all]. unfold isEscaped. rewrite E. reflexivity.
Qed.

Lemma escaped_not_delimiter (c : ascii) :
  isEscaped c = true -> negb (isDelimiter c) = true.
Proof.
  destruct c as [[] [] [] [] [] [] [] []]; intros H;
    try reflexivity; discriminate H.
Qed.

Lemma encodeURIComponent_no_delimiter (s : string) :
  all (fun ch => negb (isDelimiter ch)) (encodeURIComponent s) = true.
Proof.
  apply (all_impl isEscaped); [apply escaped_not_delimiter |].
  apply encodeURIComponent_escaped.
Qed.

End TextFacts.

Module LinkFacts.
Import LatePayments LateActions TextFacts.
Local Open Scope string_scope.

(** X4: whatever well-formed text (texts are taken as their UTF-8
    bytes) the client's name and phone hold, the link either
    [sendWhatsApp] opens is https://wa.me/ followed by digits only (the
    digits of the phone, the phone itself when it has nothing else),
    then ?text= and a text with none of the characters ? & # = / space
    or double quote in it. *)
Theorem whatsApp_link_shape :
  (forall (lp : LatePayment) (c : Clock),
      exists phoneDigits text : string,
        fst (sendWhatsApp lp c)
          = "https://wa.me/" ++ phoneDigits ++ "?text=" ++ text /\
        Text.all Text.isDigit phoneDigits = true /\
        Text.all (fun ch => negb (Text.isDelimiter ch)) text = true /\
        (Text.all Text.isDigit lp.(clientPhone) = true ->
         phoneDigits = lp.(clientPhone))) /\
  (forall collection : DailyCollections.Collection,
      exists phoneDigits text : string,
        DailyCollections.sendWhatsApp collection
          = "https://wa.me/" ++ phoneDigits ++ "?text=" ++ text /\
        Text.all Text.isDigit phoneDigits = true /\
        Text.all (fun ch => negb (Text.isDelimiter ch)) text = true /\
        (Text.all Text.isDigit collection.(DailyCollections.clientPhone)
           = true ->
         phoneDigits = collection.(DailyCollections.clientPhone))).
Proof.
  split.
  - intros lp c.
    exists (Text.replaceNonDigits lp.(clientPhone)).
    exists (Text.encodeURIComponent
              (lateMessage lp.(clientName)
                 (daysLate lp.(oldestDueDate) (c O)))).
    split; [reflexivity |]. split; [apply replaceNonDigits_digits |].
    split; [apply encodeURIComponent_no_delimiter |].
    apply replaceNonDigits_fixed.
  - intros collection.
    exists (Text.replaceNonDigits collection.(DailyCollections.clientPhone)).
    exists (Text.encodeURIComponent
              (DailyCollections.todayMessage
                 collection.(DailyCollections.clientName))).
    split; [reflexivity |]. split; [apply replaceNonDigits_digits |].
    split; [apply encodeURIComponent_no_delimiter |].
    apply replaceNonDigits_fixed.
Qed.

(** A name with an ampersand, a phone with punctuation, 11 days late. *)
Example link_sample :
  fst (sendWhatsApp
         {| clientId := 3; clientName := "Zé & Cia";
            clientPhone := "+55 (11) 99999-0000";
            totalPending := Binary64.ofZ 250;
            oldestDueDate := Some 1699000000000%Z;
            lastPaymentDate := None |}
         (fun _ => 1700000000000%Z)) =
  "https://wa.me/5511999990000?text=Ol%C3%A1%20Z%C3%A9%20%26%20Cia%2C%20notamos%20que%20seu%20pagamento%20est%C3%A1%20pendente%20h%C3%A1%2011%20dias.%20Por%20favor%2C%20entre%20em%20contato%20para%20regularizar%20sua%20situa%C3%A7%C3%A3o.".
Proof. vm_compute. reflexivity. Qed.

End LinkFacts.

Module ClassNameFacts.
Import LateActions.
Local Open Scope string_scope.

Lemma append_empty (a b : string) : a ++ b = "" -> a = "".
Proof. destruct a; [reflexivity | discriminate]. Qed.

Lemma append_assoc (a b c : string) : (a ++ b) ++ c = a ++ (b ++ c).
Proof.
  induction a as [| x a IH]; [reflexivity |].
  cbn [append]. rewrite IH. reflexivity.
Qed.

Lemma toText_truthy (v : ClassValue) : truthy v = true -> toText v <> "".
Proof.
  destruct v as [s | [] |]; cbn; try discriminate.
  intros H E. subst s. discriminate H.
Qed.

Lemma concat_cons (x : string) (l : list string) :
  l <> [] -> String.concat " " (x :: l) = x ++ " " ++ String.concat " " l.
Proof. destruct l; [contradiction | reflexivity]. Qed.

Lemma concat_app (l1 l2 : list string) :
  l1 <> [] -> l2 <> [] ->
  String.concat " " (l1 ++ l2)%list
    = String.concat " " l1 ++ " " ++ String.concat " " l2.
Proof.
  intros H1 H2. induction l1 as [| x l1 IH]; [contradiction |].
  destruct l1 as [| y l1].
  - cbn [app]. rewrite concat_cons by exact H2. reflexivity.
  - change ((x :: y :: l1) ++ l2)%list with (x :: ((y :: l1) ++ l2)%list).
    rewrite concat_cons by discriminate.
    rewrite IH by discriminate.
    rewrite (concat_cons x (y :: l1)) by discriminate.
    rewrite !append_assoc. reflexivity.
Qed.

Lemma cn_empty_iff (inputs : list ClassValue) :
  cn inputs = "" <-> filter truthy inputs = [].
Proof.
  unfold cn. split.
  - destruct (filter truthy inputs) as [| v l] eqn:E; [reflexivity |].
    assert (Hv : truthy v = true).
    { assert (Hin : In v (filter truthy inputs))
        by (rewrite E; left; reflexivity).
      apply filter_In in Hin. apply Hin. }
    apply toText_truthy in Hv. cbn [map].
    destruct (map toText l) as [| y r]; cbn [String.concat]; intros H.
    + contradiction.
    + apply append_empty in H. contradiction.
  - intros ->. reflexivity.
Qed.

Lemma cn_of_filter (inputs : list ClassValue) :
  filter truthy inputs = [] \/
  (filter truthy inputs <> [] /\ truthy (Str (cn inputs)) = true).
Proof.
  destruct (filter truthy inputs) as [| v l] eqn:E; [left; reflexivity |].
  right. split; [discriminate |].
  cbn [truthy]. destruct (String.eqb_spec (cn inputs) "") as [H | H];
    [| reflexivity].
  apply cn_empty_iff in H. rewrite E in H. discriminate H.
Qed.

Lemma no_truthy_iff (inputs : list ClassValue) :
  filter truthy inputs = [] <-> Forall (fun v => truthy v = false) inputs.
Proof.
  induction inputs as [| v l IH]; cbn [filter].
  - split; constructor.
  - destruct (truthy v) eqn:E; split; intros H.
    + discriminate H.
    + inversion H; subst. congruence.
    + constructor; [exact E | apply IH; exact H].
    + inversion H; subst. apply IH. assumption.
Qed.

Lemma cn_pair (a b : string) :
  cn [Str a; Str b] =
  if String.eqb a "" then b
  else if String.eqb b "" then a else a ++ " " ++ b.
Proof.
  unfold cn. cbn [filter truthy].
  destruct (String.eqb_spec a ""), (String.eqb_spec b "");
    subst; reflexivity.
Qed.

(** X5: [cn] can be nested: joining two lists of class values in one call
    gives what joining the two results gives; its result is empty
    exactly when no input is truthy; and falsy inputs (empty text, false,
    null) at the end add nothing, not even a space. *)
Theorem cn_flattens :
  forall l1 l2 : list ClassValue,
    cn (l1 ++ l2)%list = cn [Str (cn l1); Str (cn l2)] /\
    (cn l1 = "" <-> Forall (fun v => truthy v = false) l1) /\
    (Forall (fun v => truthy v = false) l2 -> cn (l1 ++ l2)%list = cn l1).
Proof.
  intros l1 l2.
  assert (Hflat : cn (l1 ++ l2)%list = cn [Str (cn l1); Str (cn l2)]).
  { rewrite cn_pair. unfold cn at 1. rewrite filter_app, map_app.
    destruct (cn_of_filter l1) as [E1 | [N1 T1]].
    - assert (C1 : cn l1 = "") by (apply cn_empty_iff; exact E1).
      rewrite C1, E1. reflexivity.
    - cbn [truthy] in T1. apply negb_true_iff in T1. rewrite T1.
      destruct (cn_of_filter l2) as [E2 | [N2 T2]].
      + assert (C2 : cn l2 = "") by (apply cn_empty_iff; exact E2).
        rewrite C2, E2, app_nil_r. reflexivity.
      + cbn [truthy] in T2. apply negb_true_iff in T2. rewrite T2.
        apply concat_app; intros H; apply map_eq_nil in H; contradiction. }
  split; [exact Hflat |]. split.
  - rewrite cn_empty_iff. apply no_truthy_iff.
  - intros H. apply no_truthy_iff in H.
    unfold cn. rewrite filter_app, H, app_nil_r. reflexivity.
Qed.

Lemma cn_flattens_witness :
  cn ([Str "glass-panel p-8"; Str "shadow-glow-rose"]
        ++ [Str ""; Bool false; Nothing])%list
  = cn [Str "glass-panel p-8"; Str "shadow-glow-rose"].
Proof.
  apply (proj2 (proj2 (cn_flattens
                         [Str "glass-panel p-8"; Str "shadow-glow-rose"]
                         [Str ""; Bool false; Nothing]))).
  repeat constructor.
Defined.

End ClassNameFacts.

Module RenegotiateFacts.
Import Binary64 Renegotiate.
Local Open Scope string_scope.

(** What is left of an installment paid in full is +0. *)
Lemma nothing_left (x : number) :
  isFinite x = true -> SFsub prec emax x x = S754_zero false.
Proof.
  destruct x as [s | s | | s m e]; try discriminate; intros _.
  - destruct s; reflexivity.
  - cbn [SFsub]. rewrite Z.sub_diag. reflexivity.
Qed.

Lemma fold_settled (l : list Installment) :
  Forall settled l ->
  fold_left
    (fun sum i =>
       SFadd prec emax sum (SFsub prec emax i.(amount) i.(paid_amount)))
    (filter (fun i => negb (String.eqb i.(status) "PAID")) l)
    (S754_zero false)
  = S754_zero false.
Proof.
  induction l as [| i l IH]; intros H; [reflexivity |].
  inversion H as [| ? ? Hi Hl]; subst. cbn [filter].
  destruct (String.eqb_spec (status i) "PAID") as [E | E]; cbn [negb].
  - apply IH. exact Hl.
  - destruct Hi as [Hp | [Hf Hpaid]]; [contradiction |].
    cbn [fold_left]. rewrite Hpaid, (nothing_left _ Hf).
    cbn [SFadd]. apply IH. exact Hl.
Qed.

Lemma selectPending_In (loans : list Loan) (l : PendingLoan) :
  In l (selectPending loans) <->
  exists loan, In loan loans /\ l = summary loan /\
               SFltb (ofZ 0) (pendingAmount loan) = true.
Proof.
  unfold selectPending. rewrite filter_In, in_map_iff. split.
  - intros [[loan [E Hl]] Hp]. subst l. exists loan. auto.
  - intros [loan [Hl [-> Hp]]]. split; [exists loan; auto | exact Hp].
Qed.

(** X6: [handleRenegotiateClick] tells the user the details did not
    load when the data service gives no loans, and whenever the loans of
    the client load it opens the renegotiation modal, for the client of
    the row, listing exactly the loans whose pending sum is above 0: no
    loan listed has a pending sum that is NaN, zero or negative, and a
    loan whose installments are all PAID or paid in full (also one with
    no installment) is left out. *)
Theorem renegotiation_lists_open_loans :
  forall lp : LatePayments.LatePayment,
    handleRenegotiateClick lp None = LoadFailed /\
    forall loans : list Loan,
    exists client : RenegotiateClient,
      handleRenegotiateClick lp (Some loans) = Opened client /\
      client.(client_id) = lp.(LatePayments.clientId) /\
      client.(client_name) = lp.(LatePayments.clientName) /\
      (forall l : PendingLoan,
          In l client.(pendingLoans) <->
          exists loan, In loan loans /\ l = summary loan /\
                       SFltb (ofZ 0) (pendingAmount loan) = true) /\
      (forall l : PendingLoan,
          In l client.(pendingLoans) ->
          is_nan l.(pending) = false /\ is_zero l.(pending) = false /\
          geb l.(pending) (ofZ 0) = true) /\
      (forall loan : Loan,
          In loan loans -> Forall settled loan.(installments) ->
          pendingAmount loan = S754_zero false /\
          ~ In (summary loan) client.(pendingLoans)).
Proof.
  intros lp. split; [reflexivity |]. intros loans.
  exists {| client_id := lp.(LatePayments.clientId);
            client_name := lp.(LatePayments.clientName);
            pendingLoans := selectPending loans |}.
  cbn [client_id client_name pendingLoans].
  split; [reflexivity |]. split; [reflexivity |]. split; [reflexivity |].
  split; [apply selectPending_In |]. split.
  - intros l Hl. apply selectPending_In in Hl.
    destruct Hl as [loan [_ [-> Hp]]].
    cbn [pending summary]. revert Hp.
    destruct (pendingAmount loan) as [s | s | | s m e];
      try discriminate; try (destruct s; discriminate);
      destruct s; try discriminate; intros _; repeat split.
  - intros loan Hl Hs.
    assert (E : pendingAmount loan = S754_zero false)
      by (apply fold_settled; exact Hs).
    split; [exact E |]. intros Hin. apply selectPending_In in Hin.
    destruct Hin as [loan' [_ [E' Hp]]].
    assert (Ep : pending (summary loan) = pending (summary loan'))
      by (rewrite E'; reflexivity).
    cbn [pending summary] in Ep. rewrite <- Ep, E in Hp. discriminate Hp.
Qed.

Lemma renegotiation_lists_open_loans_witness :
  exists client : RenegotiateClient,
    handleRenegotiateClick (Samples.late "Ana" 1699000000000)
      (Some [MoreSamples.loanOpen; MoreSamples.loanSettled])
    = Opened client /\
    In (summary MoreSamples.loanOpen) client.(pendingLoans) /\
    ~ In (summary MoreSamples.loanSettled) client.(pendingLoans).
Proof.
  destruct (proj2 (renegotiation_lists_open_loans
                     (Samples.late "Ana" 1699000000000))
              [MoreSamples.loanOpen; MoreSamples.loanSettled])
    as [client (Hopen & _ & _ & Hin & _ & Hout)].
  exists client. split; [exact Hopen |]. split.
  - apply Hin. exists MoreSamples.loanOpen.
    split; [left; reflexivity |]. split; reflexivity.
  - apply (Hout MoreSamples.loanSettled).
    + right. left. reflexivity.
    + constructor; [left; reflexivity |].
      constructor; [right; split; reflexivity | constructor].
Defined.

End RenegotiateFacts.


(* ================================================================= *)
(** * More of [Loans]: the outcomes of a submission, signs, zero rate *)

Module CreateLoanFacts.
Local Open Scope string_scope.

Ltac outcome :=
  repeat match goal with
         | H : Some _ = Some _ |- _ => inversion H; subst; clear H
         | H : _ /\ _ |- _ => destruct H
         | H : exists _, _ |- _ => destruct H
         end;
  try congruence; try reflexivity;
  try (eexists; split; [reflexivity | first [assumption | reflexivity]]);
  try (exfalso; congruence).

Section AnyNumbers.
Context {num : Type} {N : Numeric num} {G : Globals num}.

(** X7: [handleCreateLoan] sends a row exactly when a client is selected
    and a user with an id is signed in, a missing client being reported
    first; the row is ACTIVE, for that client, created by that user; the
    loan is reported created exactly when the service accepted the row;
    the form is reset to its defaults (with today's date) on that
    success only, and keeps what was typed in every other case. *)
Theorem handleCreateLoan_outcomes :
  forall (user : option User) (insert : LoanRow num -> option string)
         (today : string) (newLoan : NewLoan),
    let s := handleCreateLoan user insert today newLoan in
    (inserted s <> None <->
     newLoan.(client_id) <> "" /\
     exists u, user = Some u /\ u.(id) <> "") /\
    (newLoan.(client_id) = "" -> alerted s = SelectClient) /\
    (forall row, inserted s = Some row ->
       row.(row_status) = "ACTIVE" /\
       row.(row_client_id) = newLoan.(client_id) /\
       row.(row_start_date) = newLoan.(start_date) /\
       exists u, user = Some u /\ row.(row_created_by) = u.(id)) /\
    (alerted s = LoanCreated <->
     exists row, inserted s = Some row /\ insert row = None) /\
    (alerted s = LoanCreated -> form s = initialLoan today) /\
    (alerted s <> LoanCreated -> form s = newLoan).
Proof.
  intros user insert today newLoan s. subst s. unfold handleCreateLoan.
  destruct (String.eqb_spec (client_id newLoan) "") as [Ec | Ec];
    [| destruct user as [u |];
       [destruct (String.eqb_spec (id u) "") as [Eu | Eu];
          [| cbv zeta;
             destruct (insert (loanRow newLoan u)) as [message |] eqn:Ei] |]];
    cbn [inserted alerted form];
    repeat split; intros; outcome.
Qed.

End AnyNumbers.

Lemma handleCreateLoan_outcomes_witness :
  form (handleCreateLoan (N := Binary64.binary64) (G := Parse.globals)
          (Some Samples.collector) Samples.accept "2024-03-15"
          Samples.loan24)
  = initialLoan "2024-03-15".
Proof.
  apply (proj1 (proj2 (proj2 (proj2 (proj2
    (handleCreateLoan_outcomes (N := Binary64.binary64) (G := Parse.globals)
       (Some Samples.collector) Samples.accept "2024-03-15"
       Samples.loan24)))))).
  reflexivity.
Defined.

End CreateLoanFacts.

Module PreviewFacts.
Import Binary64 Binary64Facts LoansFacts.
Local Open Scope js_scope.

Lemma geb_zero (x : number) : geb x (lit 0) = nonNegative x.
Proof. destruct x as [s | [] | | [] m e]; reflexivity. Qed.

Lemma binary_round_aux_nonNegative mx ex lx :
  (0 <= mx)%Z ->
  nonNegative (binary_round_aux prec emax false mx ex lx) = true.
Proof.
  intros H.
  pose proof (binary_round_aux_not_nan prec emax false mx ex lx H) as Hn.
  revert Hn. unfold binary_round_aux.
  destruct (shr_fexp prec emax mx ex lx) as [mrs' e'].
  destruct (shr_fexp prec emax _ e' loc_Exact) as [mrs'' e''].
  destruct (shr_m mrs'') as [| m | m]; intros Hn;
    [reflexivity | | contradiction Hn; reflexivity].
  destruct (e'' <=? emax - prec)%Z; reflexivity.
Qed.

Lemma mul_nonNegative (x y : number) :
  nonNegative x = true -> nonNegative y = true ->
  isFinite x = true -> isFinite y = true ->
  nonNegative (SFmul prec emax x y) = true.
Proof.
  destruct x as [sx | sx | | sx mx ex], y as [sy | sy | | sy my ey];
    try discriminate; cbn [nonNegative SFmul isFinite];
    intros Hx Hy _ _; try reflexivity.
  apply negb_true_iff in Hx, Hy. subst sx sy.
  apply binary_round_aux_nonNegative. lia.
Qed.

Lemma add_nonNegative (x y : number) :
  nonNegative x = true -> nonNegative y = true -> isFinite x = true ->
  nonNegative (SFadd prec emax x y) = true.
Proof.
  destruct x as [sx | sx | | sx mx ex], y as [sy | sy | | sy my ey];
    try discriminate; cbn [nonNegative SFadd isFinite];
    intros Hx Hy _; try exact Hx; try exact Hy; try reflexivity.
  - destruct sx, sy; reflexivity.
  - apply negb_true_iff in Hx, Hy. subst sx sy. cbn [cond_Zopp].
    cbn [Z.add binary_normalize]. unfold binary_round.
    destruct (shl_align _ _ _) as [mz ez].
    apply binary_round_aux_nonNegative. lia.
Qed.

Lemma div_nonNegative (x y : number) :
  nonNegative x = true -> nonNegative y = true ->
  is_nan x = false -> isFinite y = true -> is_zero y = false ->
  nonNegative (SFdiv prec emax x y) = true.
Proof.
  destruct x as [sx | sx | | sx mx ex], y as [sy | sy | | sy my ey];
    try discriminate; cbn [nonNegative SFdiv isFinite];
    intros Hx Hy _ _ _; try apply negb_true_iff in Hx;
    try apply negb_true_iff in Hy; subst; try reflexivity.
  cbn [xorb].
  unfold SFdiv_core_binary.
  set (m' := match _ with Z0 => Zpos mx | Zpos _ => _ | Zneg _ => 0%Z end).
  assert (Hm : (0 <= m')%Z).
  { subst m'. destruct (_ - _ - _)%Z; try lia. apply Z.shiftl_nonneg. lia. }
  pose proof (Z.div_pos m' (Zpos my) Hm eq_refl) as Hq.
  unfold Z.div in Hq. destruct (Z.div_eucl m' (Zpos my)) as [q r].
  apply binary_round_aux_nonNegative. exact Hq.
Qed.

Lemma or_else_nonNegative (x d : number) :
  nonNegative x = true -> nonNegative d = true ->
  nonNegative (x || d) = true.
Proof.
  destruct x as [s | s | | s m e]; intros Hx Hd; try exact Hd; exact Hx.
Qed.

(** X8: for finite parsed fields with principal and rate at least 0 and
    count at least 1, no amount of the preview is negative (nor NaN):
    interest, total and installment value are all [>= 0], also when a
    product or sum overflows. *)
Theorem preview_nonnegative :
  forall (G : Globals number) (newLoan : NewLoan),
    let P := parseFloat newLoan.(capital) in
    let R := parseFloat newLoan.(interest_rate) in
    let N := parseInt newLoan.(installments_count) in
    geb P (lit 0) = true -> geb R (lit 0) = true -> geb N (lit 1) = true ->
    isFinite P = true -> isFinite R = true -> isFinite N = true ->
    wellFormed R = true ->
    geb (totalInterest (preview newLoan)) (lit 0) = true /\
    geb (totalAmount (preview newLoan)) (lit 0) = true /\
    geb (installmentValue (preview newLoan)) (lit 0) = true.
Proof.
  intros G newLoan P R N HP HR HN FP FR FN VR.
  rewrite !geb_zero in *.
  assert (TN : truthy N = true) by (apply geb_one_truthy; exact HN).
  assert (NN : nonNegative N = true).
  { revert HN. clear.
    destruct N as [s | [] | | [] m e]; try reflexivity; discriminate. }
  assert (PC : nonNegative (previewCapital newLoan) = true)
    by (apply or_else_nonNegative; [exact HP | reflexivity]).
  assert (FC : isFinite (previewCapital newLoan) = true)
    by (apply finite_or_else; [exact FP | reflexivity]).
  assert (PR : nonNegative (previewRate newLoan) = true)
    by (apply or_else_nonNegative; [exact HR | reflexivity]).
  assert (FR' : isFinite (previewRate newLoan) = true)
    by (apply finite_or_else; [exact FR | reflexivity]).
  assert (FQ : isFinite (previewRate newLoan / lit 100) = true)
    by (apply div_100_finite; [apply valid_or_zero; exact VR | exact FR']).
  assert (PQ : nonNegative (previewRate newLoan / lit 100) = true).
  { apply div_nonNegative; try reflexivity; try assumption.
    apply finite_not_nan. exact FR'. }
  assert (EN : previewCount newLoan = N) by (apply or_else_truthy; exact TN).
  destruct (previewCount_divisor G newLoan) as [ZD _]. rewrite EN in ZD.
  unfold preview. cbn [totalInterest totalAmount installmentValue].
  rewrite EN.
  assert (PI : nonNegative (previewCapital newLoan
                              * (previewRate newLoan / lit 100)) = true)
    by (apply mul_nonNegative; assumption).
  assert (PA : nonNegative (previewCapital newLoan
                              + previewCapital newLoan
                                * (previewRate newLoan / lit 100)) = true)
    by (apply add_nonNegative; assumption).
  repeat split; [exact PI | exact PA |].
  apply div_nonNegative; try assumption.
  destruct (previewCapital newLoan
            + previewCapital newLoan * (previewRate newLoan / lit 100));
    try reflexivity; discriminate PA.
Qed.

Lemma preview_nonnegative_witness :
  geb (installmentValue (preview (G := Parse.globals) Samples.loan24))
    (ofZ 0) = true.
Proof.
  apply (preview_nonnegative Parse.globals Samples.loan24); reflexivity.
Defined.

(** X9: when the rate field parses to zero or does not parse, and the
    capital parses to a finite Number, the preview shows an interest of
    zero and a total that is exactly the capital it shows. *)
Theorem zero_rate_no_interest :
  forall (G : Globals number) (newLoan : NewLoan),
    truthy (parseFloat newLoan.(interest_rate)) = false ->
    isFinite (parseFloat newLoan.(capital)) = true ->
    is_zero (totalInterest (preview newLoan)) = true /\
    totalAmount (preview newLoan) = previewCapital newLoan.
Proof.
  intros G newLoan TR FP.
  assert (ER : previewRate newLoan = lit 0)
    by (apply or_else_falsy; exact TR).
  rewrite preview_compute. unfold compute.
  cbn [totalInterest totalAmount]. rewrite ER.
  change (lit 0 / lit 100) with (S754_zero false).
  unfold previewCapital, or_else. cbn [ToBoolean binary64].
  destruct (parseFloat (capital newLoan)) as [s | s | | s m e];
    try discriminate; cbn [truthy mul add binary64 SFmul SFadd lit];
    split; try reflexivity.
Qed.

Lemma zero_rate_no_interest_witness :
  is_zero (totalInterest (preview (G := Parse.globals) MoreSamples.loanNoRate))
    = true /\
  totalAmount (preview (G := Parse.globals) MoreSamples.loanNoRate)
    = previewCapital (G := Parse.globals) MoreSamples.loanNoRate.
Proof.
  apply (zero_rate_no_interest Parse.globals MoreSamples.loanNoRate);
    reflexivity.
Defined.

End PreviewFacts.


(* ================================================================= *)
(** * [LoginPage]: what a submission leaves *)

Module LoginSubmitFacts.
Import LoginPage LoginSubmit.
Local Open Scope string_scope.

Lemma orLiteral_nonempty (a : text) (literal : string) :
  literal <> "" -> orLiteral a literal <> "".
Proof.
  intros H. unfold orLiteral. destruct a as [s |]; [| exact H].
  destruct (String.eqb_spec s ""); [exact H | assumption].
Qed.

(** X10: in login mode a user is logged in exactly when the sign-in
    answers with a user and the profile query answers with a row, and
    then no error is shown; when the sign-in or the profile query fails,
    nobody is logged in and the error line shown is never empty, whatever
    message the failure carries; the form stays in login mode and no
    profile row is sent. *)
Theorem login_only_with_profile :
  forall (f : Form) (service : Service),
    f.(isLogin) = true ->
    let s := handleSubmit f service in
    (forall user, loggedIn s = Some user <->
       exists u p, service.(signInWithPassword) = Answered (Some u) /\
                   service.(selectProfile) = Answered p /\
                   user = sessionUser u p) /\
    (loggedIn s <> None -> error s = "" /\ console s = []) /\
    ((exists m, service.(signInWithPassword) = Failed m) \/
     (exists u m, service.(signInWithPassword) = Answered (Some u) /\
                  service.(selectProfile) = Failed m) ->
     error s <> "" /\ loggedIn s = None /\ In CaughtError (console s)) /\
    nowLogin s = true /\ loading s = false /\ profileSent s = None.
Proof.
  intros f service Hlogin s. subst s. unfold handleSubmit. rewrite Hlogin.
  destruct (signInWithPassword service) as [m | [u |]];
    [| destruct (selectProfile service) as [m | p] |];
    cbn [loggedIn error console nowLogin loading profileSent caught];
    rewrite ?Hlogin;
    repeat split; intros;
    repeat match goal with
           | H : _ \/ _ |- _ => destruct H
           | H : exists _, _ |- _ => destruct H
           | H : _ /\ _ |- _ => destruct H
           | H : Some _ = Some _ |- _ => inversion H; subst; clear H
           | H : Answered _ = Answered _ |- _ => inversion H; subst; clear H
           end;
    try discriminate; try congruence; try reflexivity;
    try (apply orLiteral_nonempty; discriminate);
    try (apply in_or_app; right; left; reflexivity);
    try (do 2 eexists; repeat split; reflexivity);
    try (exfalso; congruence).
Qed.

Lemma login_only_with_profile_witness :
  error (handleSubmit
           {| isLogin := true; username := "ana@example.com";
              password := "secret"; name := ""; phone := "";
              adminCode := ""; showAdminCode := false |}
           MoreSamples.noAnswer) <> "" /\
  loggedIn (handleSubmit
              {| isLogin := true; username := "ana@example.com";
                 password := "secret"; name := ""; phone := "";
                 adminCode := ""; showAdminCode := false |}
              MoreSamples.noAnswer) = None.
Proof.
  pose proof (proj1 (proj2 (proj2
    (login_only_with_profile
       {| isLogin := true; username := "ana@example.com";
          password := "secret"; name := ""; phone := "";
          adminCode := ""; showAdminCode := false |}
       MoreSamples.noAnswer eq_refl)))) as H.
  destruct H as [He [Hl _]].
  - left. eexists. reflexivity.
  - split; [exact He | exact Hl].
Defined.

(** X11: in sign-up mode a failure of the profile insert never changes
    what the submission leaves (it is only logged): when the sign-up
    answers with a user the form switches to login mode, the profile row
    was sent with the role chosen, and the line shown is the creation
    message, which names ADMIN for an administrator and no role
    otherwise; when the sign-up fails the form stays in sign-up mode
    with a non-empty error and no profile row is sent. *)
Theorem signUp_ignores_profile_failure :
  forall (f : Form) (service : Service) (failure : option text),
    f.(isLogin) = false ->
    let s := handleSubmit f service in
    let s' := handleSubmit f
                {| signInWithPassword := service.(signInWithPassword);
                   selectProfile := service.(selectProfile);
                   authSignUp := service.(authSignUp);
                   insertProfile := failure |} in
    (error s' = error s /\ nowLogin s' = nowLogin s /\
     loggedIn s' = loggedIn s /\ profileSent s' = profileSent s) /\
    (forall userId, service.(authSignUp) = Answered (Some userId) ->
       nowLogin s = true /\
       error s = createdMessage (signUpRole f) /\
       profileSent s = Some (profile f userId) /\
       loggedIn s = None) /\
    (forall m, service.(authSignUp) = Failed m ->
       nowLogin s = false /\ error s <> "" /\ profileSent s = None) /\
    (createdMessage ADMIN
       = "Conta ADMIN criada com sucesso! Verifique seu e-mail para confirmar."
     /\ createdMessage COLLECTOR
       = "Conta  criada com sucesso! Verifique seu e-mail para confirmar.").
Proof.
  intros f service failure Hmode s s'. subst s s'. unfold handleSubmit.
  rewrite Hmode. cbn [authSignUp insertProfile].
  destruct (authSignUp service) as [m | [userId |]];
    cbn [loggedIn error console nowLogin loading profileSent caught];
    rewrite ?Hmode;
    repeat split; intros;
    repeat match goal with
           | H : Answered _ = Answered _ |- _ => inversion H; subst; clear H
           | H : Failed _ = Failed _ |- _ => inversion H; subst; clear H
           end;
    try discriminate; try reflexivity;
    try (apply orLiteral_nonempty; discriminate).
Qed.

Lemma signUp_ignores_profile_failure_witness :
  profileSent (handleSubmit (sampleForm true "admin123") MoreSamples.noAnswer)
  = Some (profile (sampleForm true "admin123") "u-2") /\
  error (handleSubmit (sampleForm true "admin123") MoreSamples.noAnswer)
  = "Conta ADMIN criada com sucesso! Verifique seu e-mail para confirmar.".
Proof.
  pose proof (proj1 (proj2
    (signUp_ignores_profile_failure (sampleForm true "admin123")
       MoreSamples.noAnswer (Some None) eq_refl)) "u-2" eq_refl) as H.
  destruct H as [_ [He [Hp _]]]. split; [exact Hp | exact He].
Defined.

End LoginSubmitFacts.

(* ================================================================= *)
(** * [DailyCollections]: payments and client details *)

Module PaymentFacts.
Import Binary64 DailyCollections.
Local Open Scope string_scope.

Lemma accepted_positive (amount : number) :
  rejected amount = false ->
  SFltb (ofZ 0) amount = true /\ is_nan amount = false.
Proof.
  unfold rejected. intros H. apply orb_false_iff in H. destruct H as [Hn Hle].
  split; [| exact Hn]. revert Hle.
  destruct amount as [s | [] | | [] m e]; try reflexivity; discriminate.
Qed.

Lemma detailOf_nonempty (message : option string) : detailOf message <> "".
Proof.
  unfold detailOf. destruct message as [s |]; [| discriminate].
  destruct (String.eqb_spec s ""); [discriminate | assumption].
Qed.

(** X12: [handlePayment] calls the payment procedure exactly when an
    installment is selected, a user is signed in and the amount (the
    pending value for a FULL payment, the typed amount otherwise) is
    neither NaN nor zero nor negative, and then with that installment,
    amount, type, method and user.  When no call is made nothing changes
    and nothing is shown.  When the procedure answers without an error
    the success is shown, the selection and the typed amount are cleared
    and the list is fetched again; when it answers with an error the
    failure is shown with a detail that is never empty, and the
    selection and the typed amount are kept.  No success is shown
    without the state being cleared, and no failure with it changed. *)
Theorem handlePayment_amounts :
  forall (G : Globals number) (user : option User)
         (rpc : Payload -> option (option string))
         (st : State) (type : PaymentKind),
    let r := handlePayment user rpc st type in
    let amount (c : Collection) :=
      match type with
      | FULL => c.(pending_value)
      | _ => parseFloat st.(paymentAmount)
      end in
    (forall payload,
        called r = Some payload <->
        exists c u,
          st.(selectedCollection) = Some c /\ user = Some u /\
          is_nan (amount c) = false /\ SFltb (ofZ 0) (amount c) = true /\
          payload = {| p_installment_id := c.(installmentId);
                       p_amount := amount c;
                       p_type := type;
                       p_method := st.(paymentMethod);
                       p_created_by := u.(id) |}) /\
    (called r = None ->
       alerted r = None /\ left r = st /\ refetched r = false) /\
    (forall payload,
        called r = Some payload ->
        (rpc payload = None ->
           alerted r = Some Registered /\
           left r = {| selectedCollection := None;
                       paymentAmount := "";
                       paymentMethod := st.(paymentMethod) |} /\
           refetched r = true) /\
        (forall message,
            rpc payload = Some message ->
            alerted r = Some (RegisterFailed (detailOf message)) /\
            detailOf message <> "" /\
            left r = st /\ refetched r = false)) /\
    (forall detail,
        alerted r = Some (RegisterFailed detail) ->
        detail <> "" /\ left r = st /\ refetched r = false) /\
    (alerted r = Some Registered ->
       (left r).(selectedCollection) = None /\
       (left r).(paymentAmount) = "" /\
       (left r).(paymentMethod) = st.(paymentMethod) /\
       refetched r = true).
Proof.
  intros G user rpc st type r amount.
  assert (Hamount : forall c, amountOf type c (paymentAmount st) = amount c)
    by (intros c; subst amount; destruct type; reflexivity).
  assert (Hrej : forall x, rejected x = false <->
                           is_nan x = false /\ SFltb (ofZ 0) x = true).
  { intros x. split.
    - intros H. apply accepted_positive in H. tauto.
    - intros [Hn Hp]. unfold rejected. rewrite Hn. cbn [orb].
      revert Hp. destruct x as [s | [] | | [] m e]; try discriminate;
        reflexivity. }
  subst r. unfold handlePayment.
  destruct (selectedCollection st) as [c |] eqn:Ec;
    [destruct user as [u |] |]; cbv zeta.
  2,3: cbn [called alerted left refetched nothingDone];
       repeat split; intros;
       repeat match goal with
              | H : exists _, _ |- _ => destruct H
              | H : _ /\ _ |- _ => destruct H
              end;
       try discriminate; reflexivity.
  rewrite Hamount.
  destruct (rejected (amount c)) eqn:Er.
  { cbn [called alerted left refetched nothingDone].
    repeat split; intros; try discriminate; try reflexivity.
    destruct H as (c' & u' & Hc & Hu & Hn & Hp & _).
    inversion Hc; subst c'. 
    assert (rejected (amount c) = false) by (apply Hrej; split; assumption).
    congruence. }
  apply Hrej in Er. destruct Er as [Hnan Hpos].
  set (payload := {| p_installment_id := installmentId c;
                     p_amount := amount c; p_type := type;
                     p_method := paymentMethod st;
                     p_created_by := id u |}).
  destruct (rpc payload) as [message |] eqn:Erpc;
    cbn [called alerted left refetched selectedCollection paymentAmount
         paymentMethod];
    repeat split; intros;
    repeat match goal with
           | H : exists _, _ |- _ => destruct H
           | H : _ /\ _ |- _ => destruct H
           | H : Some _ = Some _ |- _ => inversion H; subst; clear H
           end;
    try discriminate; try congruence; try reflexivity;
    try apply detailOf_nonempty;
    try (exists c, u; repeat split; assumption).
Qed.

(** X13: [fetchClientDetails] clears the details when nothing is
    selected; when the summary query answers, it shows the totals of
    that answer, whether or not they are zero with a value pending (the
    two branches of its test set the same details); and when the query
    fails it falls back to the capital and debt of the loan of the
    selected installment. *)
Theorem fetchClientDetails_sources :
  forall (selected : option Collection) (answer : option ClientDetails),
    (fetchClientDetails selected answer = None <-> selected = None) /\
    (forall c data,
        selected = Some c -> answer = Some data ->
        fetchClientDetails selected answer = Some data) /\
    (forall c,
        selected = Some c -> answer = None ->
        fetchClientDetails selected answer
          = Some {| totalLoaned := c.(loanCapital);
                    totalDebt := c.(loanDebt) |}).
Proof.
  intros selected answer. unfold fetchClientDetails.
  destruct selected as [c |]; [| repeat split; intros; discriminate].
  destruct answer as [[loaned debt] |].
  - cbn [totalLoaned totalDebt].
    destruct (SFeqb loaned (ofZ 0) && SFltb (ofZ 0) (pending_value c));
      repeat split; intros; try discriminate; congruence.
  - repeat split; intros; try discriminate; congruence.
Qed.

End PaymentFacts.
